(** * ptrack: session state machine and aggregation engine

    A shallow embedding of [main.go]: the data model ([LogEntry], [Project],
    [TrackerData]), the commands that mutate the snapshot (create, delete,
    start, stop) and the read-side commands (status, stats, report), followed
    by the properties of the session engine and of the aggregator. *)

From Stdlib Require Import ZArith Lia Floats.
From stdpp Require Import base numbers list strings.

Open Scope Z_scope.

(** ** Machine integers *)

(** Go's [int64], the representation of [time.Duration]: a [Z] with the
    two's-complement wrap-around of [+] and [+=] written out. *)
Module Int64.

Definition min : Z := - 2 ^ 63.
Definition max : Z := 2 ^ 63 - 1.

Definition inRange (z : Z) : Prop := min <= z <= max.

Definition wrap (z : Z) : Z := (z + 2 ^ 63) mod 2 ^ 64 - 2 ^ 63.

Definition add (a b : Z) : Z := wrap (a + b).

End Int64.

(** ** Package [time] *)

(** A [time.Time] without monotonic reading (every instant of the program is
    either [time.Now().UTC()], which strips it, or decoded from JSON) is an
    absolute instant: here the number of nanoseconds since the zero time
    January 1, year 1, 00:00:00 UTC. A [time.Duration] is an [int64] count of
    nanoseconds. *)
Module time.

Abbreviation Time := Z (only parsing).
Abbreviation Duration := Z (only parsing).

Definition zeroTime : Time := 0.

(** [t.IsZero()]: the instant is January 1, year 1, 00:00:00 UTC. *)
Definition IsZero (t : Time) : bool := bool_decide (t = zeroTime).

Definition minDuration : Duration := Int64.min.
Definition maxDuration : Duration := Int64.max.

(** [t.Sub(u)]: the duration t-u; when it exceeds what a [Duration] stores,
    the maximum (or minimum) duration is returned. *)
Definition Sub (t u : Time) : Duration :=
  if decide (minDuration <= t - u <= maxDuration) then t - u
  else if decide (t < u) then minDuration else maxDuration.

Definition Nanosecond : Duration := 1.
Definition Second : Duration := 1000000000 * Nanosecond.
Definition Minute : Duration := 60 * Second.

(** [float64(z)] for an integer [z]: the IEEE 754 binary64 number nearest to
    [z], ties to even. [float] is Rocq's primitive binary64 type, whose
    [+], [*] and [/] are those of the hardware, as Go's are. *)
Definition float64 (z : Z) : float :=
  SF2Prim (binary_normalize prec emax z 0 false).

(** [d.Minutes()]:
    [min := d / Minute; nsec := d % Minute;
     return float64(min) + float64(nsec)/(60*1e9)],
    with Go's truncating [/] and [%]. *)
Definition Minutes (d : Duration) : float :=
  let min := Z.quot d Minute in
  let nsec := Z.rem d Minute in
  (float64 min + float64 nsec / (60 * 1e9))%float.

End time.

Import time.

(** ** Data model *)

Record LogEntry := mkLogEntry {
  Start : Time;
  End : Time
}.

Record Project := mkProject {
  Name : string;
  Logs : list LogEntry;
  TotalTime : Duration
}.

Record TrackerData := mkTrackerData {
  Projects : list Project
}.

#[global] Instance LogEntry_inhabited : Inhabited LogEntry :=
  populate {| Start := zeroTime; End := zeroTime |}.

#[global] Instance Project_inhabited : Inhabited Project :=
  populate {| Name := EmptyString; Logs := []; TotalTime := 0 |}.

#[global] Instance LogEntry_eq_dec : EqDecision LogEntry.
Proof. solve_decision. Defined.

#[global] Instance Project_eq_dec : EqDecision Project.
Proof. solve_decision. Defined.

#[global] Instance TrackerData_eq_dec : EqDecision TrackerData.
Proof. solve_decision. Defined.

(** [loadTracker] on a missing file: [&TrackerData{}]. *)
Definition emptyTracker : TrackerData := {| Projects := [] |}.

(** ** Commands that mutate the snapshot *)

(** What a command reports; each constructor stands for the line the command
    prints before it returns. *)
Inductive Outcome :=
  | Created                              (* "Project '%s' created." *)
  | AlreadyExists                        (* "Project '%s' exists." *)
  | Deleted                              (* "Deleted '%s'." *)
  | Cancelled                            (* "Cancelled." *)
  | Started                              (* "Started '%s' at %s" *)
  | AlreadyActive                        (* "Already active." *)
  | Stopped (dur total : Duration)       (* "Stopped '%s': ... (Total: ...)" *)
  | NotActive                            (* "Not active." *)
  | NotFound.                            (* "'%s' not found." *)

#[global] Instance Outcome_eq_dec : EqDecision Outcome.
Proof. solve_decision. Defined.

(** [for _, p := range tracker.Projects { if p.Name == name { return true } }] *)
Fixpoint projectExists_loop (ps : list Project) (name : string) : bool :=
  match ps with
  | [] => false
  | p :: ps' => if decide (Name p = name) then true else projectExists_loop ps' name
  end.

Definition projectExists (tracker : TrackerData) (name : string) : bool :=
  projectExists_loop (Projects tracker) name.

(** [for i, p := range tracker.Projects { if p.Name == name { ... return } }]:
    the index and the value of the first project with that name. *)
Definition findProject (tracker : TrackerData) (name : string) : option (nat * Project) :=
  list_find (λ p, Name p = name) (Projects tracker).

(** case "create" *)
Definition create (tracker : TrackerData) (name : string) : Outcome * TrackerData :=
  if projectExists tracker name then (AlreadyExists, tracker)
  else (Created,
        {| Projects := Projects tracker ++ [{| Name := name; Logs := []; TotalTime := 0 |}] |}).

(** case "delete"; [r] is the answer read from the terminal. *)
Definition delete (tracker : TrackerData) (name : string) (r : string) : Outcome * TrackerData :=
  match findProject tracker name with
  | Some (i, p) =>
      if bool_decide (r ≠ "y"%string) && bool_decide (r ≠ "Y"%string) then (Cancelled, tracker)
      else (Deleted,
            {| Projects := take i (Projects tracker) ++ drop (i + 1) (Projects tracker) |})
  | None => (NotFound, tracker)
  end.

(** case "start" *)
Definition start (tracker : TrackerData) (name : string) (now : Time) : Outcome * TrackerData :=
  match findProject tracker name with
  | Some (i, p) =>
      let logs := Logs p in
      if bool_decide (0 < length logs)%nat && IsZero (End (logs !!! (length logs - 1)%nat))
      then (AlreadyActive, tracker)
      else (Started,
            {| Projects :=
                 alter (λ q, {| Name := Name q;
                                Logs := logs ++ [{| Start := now; End := zeroTime |}];
                                TotalTime := TotalTime q |})
                       i (Projects tracker) |})
  | None => (NotFound, tracker)
  end.

(** case "stop" *)
Definition stop (tracker : TrackerData) (name : string) (now : Time) : Outcome * TrackerData :=
  match findProject tracker name with
  | Some (i, p) =>
      let logs := Logs p in
      if bool_decide (length logs = 0)%nat || negb (IsZero (End (logs !!! (length logs - 1)%nat)))
      then (NotActive, tracker)
      else
        let end_ := now in
        let dur := Sub end_ (Start (logs !!! (length logs - 1)%nat)) in
        let projects' :=
          alter (λ q, {| Name := Name q;
                         Logs := alter (λ e, {| Start := Start e; End := end_ |})
                                       (length logs - 1)%nat (Logs q);
                         TotalTime := Int64.add (TotalTime q) dur |})
                i (Projects tracker) in
        (Stopped dur (TotalTime (projects' !!! i)), {| Projects := projects' |})
  | None => (NotFound, tracker)
  end.

(** ** Read-side commands *)

(** The wall clock seen by one invocation: [clock k] is the instant returned
    by the [k]-th call of [time.Now()] made by the command. The read-side
    commands thread the number of calls made so far. *)
Definition Clock := nat → Time.

(** [time.Since(t)], that is [time.Now().Sub(t)] for a [t] without monotonic
    reading: one more reading of the clock. *)
Definition Since (clock : Clock) (k : nat) (t : Time) : Duration * nat :=
  (Sub (clock k) t, S k).

(** case "status": one row per project with an open last entry. *)
Record StatusRow := mkStatusRow {
  statusName : string;
  statusStart : Time;
  statusElapsed : Duration
}.

Fixpoint status_loop (clock : Clock) (k : nat) (ps : list Project) : list StatusRow :=
  match ps with
  | [] => []
  | p :: ps' =>
      if bool_decide (0 < length (Logs p))%nat
         && IsZero (End (Logs p !!! (length (Logs p) - 1)%nat))
      then
        let start := Start (Logs p !!! (length (Logs p) - 1)%nat) in
        let '(dur, k') := Since clock k start in
        {| statusName := Name p; statusStart := start; statusElapsed := dur |}
          :: status_loop clock k' ps'
      else status_loop clock k ps'
  end.

(** The rows printed under "Active Sessions:"; "None" is printed when there
    is no row. *)
Definition status (clock : Clock) (tracker : TrackerData) : list StatusRow :=
  status_loop clock 0 (Projects tracker).

(** case "stats": one row per entry; [statsEnd = None] is the "-" printed for
    an entry without end. *)
Record StatsRow := mkStatsRow {
  statsIndex : nat;
  statsStart : Time;
  statsEnd : option Time;
  statsDur : Duration
}.

Fixpoint stats_loop (clock : Clock) (k : nat) (i : nat) (logs : list LogEntry) : list StatsRow :=
  match logs with
  | [] => []
  | e :: logs' =>
      let '(dur, k') := Since clock k (Start e) in
      (if negb (IsZero (End e))
       then {| statsIndex := (i + 1)%nat; statsStart := Start e;
               statsEnd := Some (End e); statsDur := Sub (End e) (Start e) |}
       else {| statsIndex := (i + 1)%nat; statsStart := Start e;
               statsEnd := None; statsDur := dur |})
        :: stats_loop clock k' (S i) logs'
  end.

Record StatsView := mkStatsView {
  statsSessions : nat;
  statsTotal : Duration;
  statsRows : list StatsRow
}.

(** [None] stands for "'%s' not found." *)
Definition stats (clock : Clock) (tracker : TrackerData) (name : string) : option StatsView :=
  match findProject tracker name with
  | Some (_, p) =>
      Some {| statsSessions := length (Logs p);
              statsTotal := TotalTime p;
              statsRows := stats_loop clock 0 0 (Logs p) |}
  | None => None
  end.

(** case "report". The four lines
    [t := p.TotalTime; if len(p.Logs) > 0 && p.Logs[len(p.Logs)-1].End.IsZero()
     { t += time.Since(p.Logs[len(p.Logs)-1].Start) }]
    occur in both loops of the command. *)
Definition effectiveTotalAt (clock : Clock) (k : nat) (p : Project) : Duration * nat :=
  let t := TotalTime p in
  if bool_decide (0 < length (Logs p))%nat
     && IsZero (End (Logs p !!! (length (Logs p) - 1)%nat))
  then
    let '(d, k') := Since clock k (Start (Logs p !!! (length (Logs p) - 1)%nat)) in
    (Int64.add t d, k')
  else (t, k).

(** The effective total of a project when every reading of the clock returns
    the same instant [now]. *)
Definition effectiveTotal (p : Project) (now : Time) : Duration :=
  (effectiveTotalAt (λ _, now) 0 p).1.

(** First loop: [totalAll += t] over all the projects. *)
Fixpoint totalAll_loop (clock : Clock) (k : nat) (ps : list Project) (totalAll : Duration)
  : Duration * nat :=
  match ps with
  | [] => (totalAll, k)
  | p :: ps' =>
      let '(t, k') := effectiveTotalAt clock k p in
      totalAll_loop clock k' ps' (Int64.add totalAll t)
  end.

(** [percent := 0.0; if totalAll > 0 { percent = (t.Minutes() / totalAll.Minutes()) * 100 }] *)
Definition percentOf (t totalAll : Duration) : float :=
  if decide (totalAll > 0) then (Minutes t / Minutes totalAll * 100)%float else 0%float.

Record ReportRow := mkReportRow {
  reportName : string;
  reportSessions : nat;
  reportTime : Duration;
  reportPercent : float
}.

(** Second loop: one row per project. *)
Fixpoint rows_loop (clock : Clock) (k : nat) (ps : list Project) (totalAll : Duration)
  : list ReportRow :=
  match ps with
  | [] => []
  | p :: ps' =>
      let '(t, k') := effectiveTotalAt clock k p in
      {| reportName := Name p; reportSessions := length (Logs p);
         reportTime := t; reportPercent := percentOf t totalAll |}
        :: rows_loop clock k' ps' totalAll
  end.

Record Report := mkReport {
  rows : list ReportRow;
  grandTotal : Duration
}.

(** [None] stands for "No projects." *)
Definition report (clock : Clock) (tracker : TrackerData) : option Report :=
  if bool_decide (length (Projects tracker) = 0)%nat then None
  else
    let '(totalAll, k) := totalAll_loop clock 0 (Projects tracker) 0 in
    Some {| rows := rows_loop clock k (Projects tracker) totalAll; grandTotal := totalAll |}.

(** ** Invocations *)

(** One invocation of the program that may change the snapshot; [now] is the
    instant read at the top of [main]. *)
Inductive Command :=
  | CmdCreate (name : string)
  | CmdDelete (name : string) (answer : string)
  | CmdStart (name : string)
  | CmdStop (name : string).

Definition run (c : Command) (now : Time) (tracker : TrackerData) : Outcome * TrackerData :=
  match c with
  | CmdCreate name => create tracker name
  | CmdDelete name r => delete tracker name r
  | CmdStart name => start tracker name now
  | CmdStop name => stop tracker name now
  end.

(** [saveTracker] followed by the [loadTracker] of the next invocation: the
    snapshot goes through [encoding/json]. Entries and totals are read back as
    they were written; a name is read back as it was written, and a name that
    is not valid UTF-8 is written with U+FFFD in place of its invalid bytes.
    [f] stands for that rewriting of the names. *)
Definition reload (f : string → string) (tracker : TrackerData) : TrackerData :=
  {| Projects :=
       (λ p, {| Name := f (Name p); Logs := Logs p; TotalTime := TotalTime p |})
         <$> Projects tracker |}.

(** The snapshots the program can produce from an empty store: each
    invocation runs one command on the snapshot it loads, and what it saves is
    what the next one loads, with the names possibly rewritten. *)
Inductive reachable : TrackerData → Prop :=
  | reachable_empty : reachable emptyTracker
  | reachable_run c now tracker :
      reachable tracker → reachable (run c now tracker).2
  | reachable_reload f tracker :
      reachable tracker → reachable (reload f tracker).

(** ** The remaining commands and the dispatch of [main] *)

(** case "list": the names printed under "Projects:", in order. *)
Definition listNames (tracker : TrackerData) : list string :=
  Name <$> Projects tracker.

(** What one invocation prints, up to formatting. *)
Inductive Printed :=
  | NoCommand                                  (* "No command provided. Use 'help'." *)
  | HelpText                                   (* the help text *)
  | NameRequired                               (* "Project name required." and the help text *)
  | UnknownCommand                             (* "Unknown command. Use 'help'." *)
  | Said (o : Outcome)                         (* the line of create, delete, start or stop *)
  | Listed (names : list string)               (* "Projects:" and the names *)
  | StatusShown (active : list StatusRow)      (* "Active Sessions:" and the rows, or "None" *)
  | StatsShown (view : option StatsView)       (* the table, or "'%s' not found." *)
  | ReportShown (summary : option Report).     (* the summary, or "No projects." *)

(** An invocation: what it prints and the snapshot it passes to
    [saveTracker], if it calls it. *)
Record Invocation := mkInvocation {
  printed : Printed;
  saved : option TrackerData
}.

(** [main], after the paths are resolved and the log file is opened: [args]
    is [os.Args] (the program name first), [now] the instant read at the top,
    [clock] the later readings, [r] the answer typed at the prompt of delete
    and [tracker] the snapshot that [loadTracker] returns. *)
Definition main (args : list string) (now : Time) (clock : Clock) (r : string)
    (tracker : TrackerData) : Invocation :=
  if bool_decide (length args < 2)%nat then {| printed := NoCommand; saved := None |}
  else
    let verb := args !!! 1%nat in
    if decide (verb = "help"%string) then {| printed := HelpText; saved := None |}
    else if decide (verb = "create"%string) then
      if bool_decide (length args < 3)%nat then {| printed := NameRequired; saved := None |}
      else
        let name := args !!! 2%nat in
        match create tracker name with
        | (Created, tracker') => {| printed := Said Created; saved := Some tracker' |}
        | (o, _) => {| printed := Said o; saved := None |}
        end
    else if decide (verb = "delete"%string) then
      if bool_decide (length args < 3)%nat then {| printed := NameRequired; saved := None |}
      else
        let name := args !!! 2%nat in
        match delete tracker name r with
        | (Deleted, tracker') => {| printed := Said Deleted; saved := Some tracker' |}
        | (o, _) => {| printed := Said o; saved := None |}
        end
    else if decide (verb = "start"%string) then
      if bool_decide (length args < 3)%nat then {| printed := NameRequired; saved := None |}
      else
        let name := args !!! 2%nat in
        match start tracker name now with
        | (Started, tracker') => {| printed := Said Started; saved := Some tracker' |}
        | (o, _) => {| printed := Said o; saved := None |}
        end
    else if decide (verb = "stop"%string) then
      if bool_decide (length args < 3)%nat then {| printed := NameRequired; saved := None |}
      else
        let name := args !!! 2%nat in
        match stop tracker name now with
        | (Stopped dur total, tracker') =>
            {| printed := Said (Stopped dur total); saved := Some tracker' |}
        | (o, _) => {| printed := Said o; saved := None |}
        end
    else if decide (verb = "list"%string) then
      {| printed := Listed (listNames tracker); saved := None |}
    else if decide (verb = "status"%string) then
      {| printed := StatusShown (status clock tracker); saved := None |}
    else if decide (verb = "stats"%string) then
      if bool_decide (length args < 3)%nat then {| printed := NameRequired; saved := None |}
      else {| printed := StatsShown (stats clock tracker (args !!! 2%nat)); saved := None |}
    else if decide (verb = "report"%string) then
      {| printed := ReportShown (report clock tracker); saved := None |}
    else {| printed := UnknownCommand; saved := None |}.

(** ** The state of a project, in the words of the specification *)

(** A project is Active iff its log sequence is non-empty and the last
    entry's end is absent. *)
Definition isOpen (e : LogEntry) : bool := IsZero (End e).

Definition isActive (p : Project) : bool :=
  match last (Logs p) with
  | Some e => isOpen e
  | None => false
  end.

Definition isIdle (p : Project) : bool :=
  match last (Logs p) with
  | Some e => negb (isOpen e)
  | None => true
  end.

(** The sum of [end - start] over the closed entries, in [Duration]
    arithmetic. *)
Fixpoint closedSum (logs : list LogEntry) : Duration :=
  match logs with
  | [] => 0
  | e :: logs' =>
      if isOpen e then closedSum logs'
      else Int64.add (Sub (End e) (Start e)) (closedSum logs')
  end.

(** ** Definitions used to state the properties *)

(** The project after a successful start at [now]. *)
Definition startedProject (p : Project) (now : Time) : Project :=
  {| Name := Name p;
     Logs := Logs p ++ [{| Start := now; End := zeroTime |}];
     TotalTime := TotalTime p |}.

(** The project whose logs are [init ++ [e]] after a successful stop at
    [now]. *)
Definition stoppedProject (p : Project) (init : list LogEntry) (e : LogEntry) (now : Time)
  : Project :=
  {| Name := Name p;
     Logs := init ++ [{| Start := Start e; End := now |}];
     TotalTime := Int64.add (TotalTime p) (Sub now (Start e)) |}.

(** An open entry can only be the last one of the sequence. *)
Definition openOnlyLast (logs : list LogEntry) : Prop :=
  ∀ k e, logs !! k = Some e → isOpen e = true → S k = length logs.

(** Every project of the snapshot has at most its last entry open. *)
Definition wellFormedLogs (tracker : TrackerData) : Prop :=
  Forall (λ p, openOnlyLast (Logs p)) (Projects tracker).

(** [TotalTime] is the sum over the closed entries of the logs. *)
Definition totalMatchesLogs (p : Project) : Prop :=
  TotalTime p = closedSum (Logs p).

(** The equality holds for every project of the snapshot. *)
Definition totalsConsistent (tracker : TrackerData) : Prop :=
  Forall totalMatchesLogs (Projects tracker).

(** The row of "stats" for the entry [e], printed with ordinal [i + 1] when
    the clock has been read [k] times. *)
Definition statsRowOf (clock : Clock) (k i : nat) (e : LogEntry) : StatsRow :=
  {| statsIndex := (i + 1)%nat;
     statsStart := Start e;
     statsEnd := if isOpen e then None else Some (End e);
     statsDur := if isOpen e then Sub (clock k) (Start e) else Sub (End e) (Start e) |}.

(** The sum of integers, without wrap-around. *)
Definition sumZ (l : list Z) : Z := foldr Z.add 0 l.


(** Two projects that differ at most in [TotalTime]. *)
Definition sameSessions (p q : Project) : Prop :=
  Name p = Name q ∧ Logs p = Logs q.

(** The names of the projects are pairwise distinct. *)
Definition uniqueNames (tracker : TrackerData) : Prop :=
  NoDup (listNames tracker).

(** The command that [main] runs for a verb that may change the snapshot. *)
Definition commandOf (verb name r : string) : option Command :=
  if decide (verb = "create"%string) then Some (CmdCreate name)
  else if decide (verb = "delete"%string) then Some (CmdDelete name r)
  else if decide (verb = "start"%string) then Some (CmdStart name)
  else if decide (verb = "stop"%string) then Some (CmdStop name)
  else None.

(** The outcomes after which a command has changed the snapshot. *)
Definition succeeded (o : Outcome) : bool :=
  match o with
  | Created | Deleted | Started | Stopped _ _ => true
  | _ => false
  end.

(** A command that rewrites the project it finds: [f] gives what is printed
    and the project written back. *)
Definition applyFound (f : Project → Outcome * Project) (name : string)
    (tracker : TrackerData) : Outcome * TrackerData :=
  match findProject tracker name with
  | Some (i, p) => ((f p).1, {| Projects := <[i:=(f p).2]> (Projects tracker) |})
  | None => (NotFound, tracker)
  end.

(** What start and stop do to the project they find. *)
Definition startStep (now : Time) (p : Project) : Outcome * Project :=
  if isActive p then (AlreadyActive, p) else (Started, startedProject p now).

Definition stopStep (now : Time) (p : Project) : Outcome * Project :=
  match last (Logs p) with
  | Some e =>
      if isOpen e
      then (Stopped (Sub now (Start e)) (Int64.add (TotalTime p) (Sub now (Start e))),
            stoppedProject p (removelast (Logs p)) e now)
      else (NotActive, p)
  | None => (NotActive, p)
  end.

(** A start or a stop on the project named [name]. *)
Definition sessionCommand (c : Command) (name : string) : Prop :=
  c = CmdStart name ∨ c = CmdStop name.

(** The start of the last entry of a project. *)
Definition openStart (p : Project) : Time :=
  match last (Logs p) with
  | Some e => Start e
  | None => zeroTime
  end.

(** The row of "status" for the Active project [p], printed with the [k]-th
    reading of the clock. *)
Definition statusRowOf (clock : Clock) (k : nat) (p : Project) : StatusRow :=
  {| statusName := Name p;
     statusStart := openStart p;
     statusElapsed := Sub (clock k) (openStart p) |}.

(** The number of Active projects among the first [j] of [ps]. *)
Definition activeBefore (ps : list Project) (j : nat) : nat :=
  length (filter (λ p, isActive p = true) (take j ps)).

(** The effective total of [p] computed with the [n]-th reading of the
    clock. *)
Definition effectiveAtReading (clock : Clock) (n : nat) (p : Project) : Duration :=
  if isActive p then Int64.add (TotalTime p) (Sub (clock n) (openStart p))
  else TotalTime p.

(** ** Snapshots used as examples *)

(** An instant of the year 2026, in nanoseconds since the zero time. *)
Definition T0 : Time := 63900000000 * Second.

(** A snapshot the program reaches from an empty store: "alpha" is created,
    then started 5ns after the zero time. *)
Definition alphaStartedAt5 : TrackerData :=
  (start (create emptyTracker "alpha").2 "alpha" 5).2.

(** "alpha" created, started at 5, stopped at 9, started again at 12. *)
Definition alphaRestarted : TrackerData :=
  (run (CmdStart "alpha") 12
     (run (CmdStop "alpha") 9
        (run (CmdStart "alpha") 5
           (run (CmdCreate "alpha") 1 emptyTracker).2).2).2).2.


(** "alpha" is being tracked since one minute and "beta" has one minute of
    closed time: the scenario of the specification, with T0 = 5ns. *)
Definition alphaLiveBetaFixed : TrackerData :=
  {| Projects := Projects alphaStartedAt5
                 ++ [{| Name := "beta"; Logs := []; TotalTime := 1 * Minute |}] |}.



(** * Properties *)

(** ** Arithmetic of [int64] *)

Lemma wrap_inRange z : Int64.inRange (Int64.wrap z).
Proof.
  unfold Int64.inRange, Int64.wrap, Int64.min, Int64.max.
  pose proof (Z.mod_pos_bound (z + 2 ^ 63) (2 ^ 64)). lia.
Qed.

Lemma wrap_small z : Int64.inRange z → Int64.wrap z = z.
Proof.
  unfold Int64.inRange, Int64.wrap, Int64.min, Int64.max. intros Hz.
  rewrite Z.mod_small; lia.
Qed.

Lemma wrap_add_l a b : Int64.wrap (Int64.wrap a + b) = Int64.wrap (a + b).
Proof.
  unfold Int64.wrap.
  replace ((a + 2 ^ 63) mod 2 ^ 64 - 2 ^ 63 + b + 2 ^ 63)
    with ((a + 2 ^ 63) mod 2 ^ 64 + b) by lia.
  rewrite Zplus_mod_idemp_l. do 2 f_equal. lia.
Qed.

Lemma wrap_add_r a b : Int64.wrap (a + Int64.wrap b) = Int64.wrap (a + b).
Proof. rewrite (Z.add_comm a), wrap_add_l. f_equal. lia. Qed.

Lemma add_comm a b : Int64.add a b = Int64.add b a.
Proof. unfold Int64.add. f_equal. lia. Qed.

Lemma add_assoc a b c : Int64.add a (Int64.add b c) = Int64.add (Int64.add a b) c.
Proof. unfold Int64.add. rewrite wrap_add_l, wrap_add_r. f_equal. lia. Qed.

Lemma add_0_r a : Int64.inRange a → Int64.add a 0 = a.
Proof. intros Ha. unfold Int64.add. rewrite Z.add_0_r. by apply wrap_small. Qed.

Lemma add_small a b : Int64.inRange (a + b) → Int64.add a b = a + b.
Proof. apply wrap_small. Qed.

(** ** Package [time] *)

Lemma IsZero_true t : IsZero t = true ↔ t = zeroTime.
Proof. unfold IsZero. apply bool_decide_eq_true. Qed.

Lemma IsZero_false t : IsZero t = false ↔ t ≠ zeroTime.
Proof. unfold IsZero. apply bool_decide_eq_false. Qed.

Lemma Sub_inRange t u : Int64.inRange (Sub t u).
Proof.
  unfold Sub, minDuration, maxDuration, Int64.inRange.
  repeat case_decide; unfold Int64.min, Int64.max in *; lia.
Qed.

Lemma Sub_exact t u : minDuration <= t - u <= maxDuration → Sub t u = t - u.
Proof. intros H. unfold Sub. by rewrite decide_True. Qed.

(** ** The guards of the commands read the last entry *)

Lemma lookup_total_last (logs : list LogEntry) (e : LogEntry) :
  (logs ++ [e]) !!! (length (logs ++ [e]) - 1)%nat = e.
Proof.
  rewrite length_app. simpl.
  replace (length logs + 1 - 1)%nat with (length logs) by lia.
  apply list_lookup_total_middle. done.
Qed.

(** The condition [len(logs) > 0 && logs[len(logs)-1].End.IsZero()]. *)
Lemma active_guard (logs : list LogEntry) :
  bool_decide (0 < length logs)%nat && IsZero (End (logs !!! (length logs - 1)%nat))
  = match last logs with Some e => isOpen e | None => false end.
Proof.
  destruct logs as [|e0 logs0] using rev_ind; [done|].
  rewrite last_snoc, lookup_total_last, bool_decide_eq_true_2; [done|].
  rewrite length_app. simpl. lia.
Qed.

(** The condition [len(logs) == 0 || !logs[len(logs)-1].End.IsZero()]. *)
Lemma idle_guard (logs : list LogEntry) :
  bool_decide (length logs = 0)%nat || negb (IsZero (End (logs !!! (length logs - 1)%nat)))
  = match last logs with Some e => negb (isOpen e) | None => true end.
Proof.
  destruct logs as [|e0 logs0] using rev_ind; [done|].
  rewrite last_snoc, lookup_total_last, bool_decide_eq_false_2; [done|].
  rewrite length_app. simpl. lia.
Qed.

Lemma isIdle_negb p : isIdle p = negb (isActive p).
Proof. unfold isIdle, isActive. by destruct (last (Logs p)). Qed.

Lemma isActive_snoc p :
  isActive p = true ↔ ∃ init e, Logs p = init ++ [e] ∧ End e = zeroTime.
Proof.
  unfold isActive, isOpen. split.
  - destruct (last (Logs p)) as [e|] eqn:Hl; [|done].
    intros Hz. apply last_Some in Hl as [init ->].
    exists init, e. split; [done|]. by apply IsZero_true.
  - intros (init & e & -> & He). rewrite last_snoc. by apply IsZero_true.
Qed.

(** ** Looking a project up by name *)

Lemma findProject_Some tracker name i p :
  findProject tracker name = Some (i, p) ↔
  Projects tracker !! i = Some p ∧ Name p = name ∧
  ∀ j q, Projects tracker !! j = Some q → (j < i)%nat → Name q ≠ name.
Proof. unfold findProject. apply (list_find_Some (λ q, Name q = name)). Qed.

Lemma findProject_None tracker name :
  findProject tracker name = None ↔ ∀ p, p ∈ Projects tracker → Name p ≠ name.
Proof. unfold findProject. rewrite list_find_None. apply Forall_forall. Qed.

Lemma projectExists_find tracker name :
  projectExists tracker name = false ↔ findProject tracker name = None.
Proof.
  rewrite findProject_None. unfold projectExists.
  induction (Projects tracker) as [|p ps IH]; simpl.
  - split; [|done]. intros _ p Hp. by apply elem_of_nil in Hp.
  - case_decide as Hn.
    + split; [done|]. intros H. exfalso. apply (H p); [left|done].
    + rewrite IH. split.
      * intros H q Hq. apply elem_of_cons in Hq as [->|Hq]; auto.
      * intros H q Hq. apply H. by right.
Qed.

(** ** What start and stop compute on a project that was found *)

Lemma alter_to_insert {A} (f : A → A) (l : list A) (i : nat) (x : A) :
  l !! i = Some x → alter f i l = <[i:=f x]> l.
Proof.
  intros Hx. rewrite list_insert_alter.
  apply list_alter_ext; [|done]. intros y Hy. congruence.
Qed.

Lemma alter_last {A} (f : A → A) (init : list A) (e : A) :
  alter f (length (init ++ [e]) - 1)%nat (init ++ [e]) = init ++ [f e].
Proof.
  rewrite length_app. simpl.
  replace (length init + 1 - 1)%nat with (length init + 0)%nat by lia.
  by rewrite alter_app_r.
Qed.

Lemma start_found tracker name now i p :
  findProject tracker name = Some (i, p) →
  start tracker name now =
    if isActive p then (AlreadyActive, tracker)
    else (Started, {| Projects := <[i:=startedProject p now]> (Projects tracker) |}).
Proof.
  intros Hf. unfold start. rewrite Hf. simpl. rewrite active_guard.
  fold (isActive p). destruct (isActive p); [done|].
  apply findProject_Some in Hf as (Hi & _ & _).
  by rewrite (alter_to_insert _ _ _ _ Hi).
Qed.

Lemma stop_found_idle tracker name now i p :
  findProject tracker name = Some (i, p) →
  isActive p = false →
  stop tracker name now = (NotActive, tracker).
Proof.
  intros Hf Hp. unfold stop. rewrite Hf. simpl. rewrite idle_guard.
  fold (isIdle p). by rewrite isIdle_negb, Hp.
Qed.

Lemma stop_found_active tracker name now i p init e :
  findProject tracker name = Some (i, p) →
  Logs p = init ++ [e] →
  End e = zeroTime →
  stop tracker name now =
    (Stopped (Sub now (Start e)) (Int64.add (TotalTime p) (Sub now (Start e))),
     {| Projects := <[i:=stoppedProject p init e now]> (Projects tracker) |}).
Proof.
  intros Hf Hl He. unfold stop. rewrite Hf. simpl. rewrite idle_guard.
  apply findProject_Some in Hf as (Hi & _ & _).
  rewrite Hl, last_snoc. unfold isOpen. rewrite He. simpl.
  rewrite lookup_total_last, (alter_to_insert _ _ _ _ Hi), Hl, alter_last.
  rewrite list_lookup_total_insert_eq by (by eapply lookup_lt_Some).
  done.
Qed.

(** ** Session engine: stop on an Active project *)

(** C1, counterexample: "alpha" is Active; stop at the zero time succeeds, and
    the project is not Idle afterwards: the end it wrote reads as absent. *)
Lemma stop_at_zero_time_not_idle :
  ∃ p p' d t,
    findProject alphaStartedAt5 "alpha" = Some (0%nat, p) ∧ isActive p = true ∧
    (stop alphaStartedAt5 "alpha" zeroTime).1 = Stopped d t ∧
    Projects (stop alphaStartedAt5 "alpha" zeroTime).2 !! 0%nat = Some p' ∧
    isIdle p' = false ∧ isActive p' = true.
Proof. by repeat eexists. Qed.

(** C1 (amended): when the first project named [name] is Active, its logs are
    [init ++ [e]] with [e] open, and [stop] at [now] succeeds: it writes
    [End = now] into that last entry only, adds [dur = now.Sub(e.Start)] to
    [TotalTime] (an [int64] addition) and changes nothing else. The project is
    Idle afterwards provided [now] is not the zero time. An instant [now]
    earlier than the start of the entry is accepted, and the negative duration
    is recorded as given (as long as it fits a [Duration]). *)
Theorem stop_active_closes_last tracker name now i p :
  findProject tracker name = Some (i, p) →
  isActive p = true →
  ∃ init e,
    Logs p = init ++ [e] ∧ isOpen e = true ∧
    let dur := Sub now (Start e) in
    let p' := {| Name := Name p;
                 Logs := init ++ [{| Start := Start e; End := now |}];
                 TotalTime := Int64.add (TotalTime p) dur |} in
    stop tracker name now =
      (Stopped dur (TotalTime p'), {| Projects := <[i:=p']> (Projects tracker) |}) ∧
    Projects (stop tracker name now).2 !! i = Some p' ∧
    (now ≠ zeroTime → isIdle p' = true ∧ isActive p' = false) ∧
    (now < Start e → minDuration <= now - Start e → dur = now - Start e ∧ dur < 0).
Proof.
  intros Hf Hp. destruct (proj1 (isActive_snoc p) Hp) as (init & e & Hl & He).
  exists init, e. split; [done|]. split; [by apply IsZero_true|]. simpl.
  rewrite (stop_found_active _ _ now _ _ _ _ Hf Hl He). unfold stoppedProject. simpl.
  split; [done|]. split; [|split].
  - apply list_lookup_insert_eq. apply findProject_Some in Hf as (Hi & _).
    by eapply lookup_lt_Some.
  - intros Hnow. unfold isIdle, isActive, isOpen. simpl. rewrite last_snoc. simpl.
    apply IsZero_false in Hnow. by rewrite Hnow.
  - intros Hlt Hmin. rewrite Sub_exact; [lia|].
    unfold maxDuration, Int64.max. lia.
Qed.

Lemma stop_active_closes_last_witness :
  ∃ init e,
    Logs (startedProject {| Name := "alpha"; Logs := []; TotalTime := 0 |} 5) = init ++ [e] ∧
    isOpen e = true ∧
    let dur := Sub 3 (Start e) in
    let p' := {| Name := "alpha";
                 Logs := init ++ [{| Start := Start e; End := 3 |}];
                 TotalTime := Int64.add 0 dur |} in
    stop alphaStartedAt5 "alpha" 3 =
      (Stopped dur (TotalTime p'),
       {| Projects := <[0%nat:=p']> (Projects alphaStartedAt5) |}) ∧
    Projects (stop alphaStartedAt5 "alpha" 3).2 !! 0%nat = Some p' ∧
    (3 ≠ zeroTime → isIdle p' = true ∧ isActive p' = false) ∧
    (3 < Start e → minDuration <= 3 - Start e → dur = 3 - Start e ∧ dur < 0).
Proof.
  apply (stop_active_closes_last alphaStartedAt5 "alpha" 3 0%nat
           (startedProject {| Name := "alpha"; Logs := []; TotalTime := 0 |} 5));
    reflexivity.
Defined.

(** ** Session engine: rejected commands leave the snapshot as it is *)

(** C4: [start] on a name whose (first) project is Active signals
    AlreadyActive, and on a name that no project has signals NotFound; in both
    cases the snapshot it returns is the one it was given, so no entry is
    appended and no [TotalTime] changes. *)
Theorem start_rejected_unchanged tracker name now :
  (∀ i p, findProject tracker name = Some (i, p) → isActive p = true →
          start tracker name now = (AlreadyActive, tracker)) ∧
  ((∀ p, p ∈ Projects tracker → Name p ≠ name) →
   start tracker name now = (NotFound, tracker)).
Proof.
  split.
  - intros i p Hf Hp. by rewrite (start_found _ _ _ _ _ Hf), Hp.
  - intros Hn. apply findProject_None in Hn. unfold start. by rewrite Hn.
Qed.

Lemma start_rejected_unchanged_witness :
  start alphaStartedAt5 "alpha" 7 = (AlreadyActive, alphaStartedAt5) ∧
  start alphaStartedAt5 "beta" 7 = (NotFound, alphaStartedAt5).
Proof.
  split.
  - apply (proj1 (start_rejected_unchanged alphaStartedAt5 "alpha" 7) 0%nat
             (startedProject {| Name := "alpha"; Logs := []; TotalTime := 0 |} 5));
      reflexivity.
  - apply (proj2 (start_rejected_unchanged alphaStartedAt5 "beta" 7)).
    intros p Hp. apply list_elem_of_singleton in Hp as ->. discriminate.
Defined.

(** C5: [stop] on a name whose (first) project is not Active (no logs, or a
    closed last entry) signals NotActive, and on a name that no project has
    signals NotFound; in both cases the snapshot it returns is the one it was
    given, so [TotalTime] and [Logs] are unchanged. *)
Theorem stop_rejected_unchanged tracker name now :
  (∀ i p, findProject tracker name = Some (i, p) → isActive p = false →
          stop tracker name now = (NotActive, tracker)) ∧
  ((∀ p, p ∈ Projects tracker → Name p ≠ name) →
   stop tracker name now = (NotFound, tracker)).
Proof.
  split.
  - intros i p. apply stop_found_idle.
  - intros Hn. apply findProject_None in Hn. unfold stop. by rewrite Hn.
Qed.

Lemma stop_rejected_unchanged_witness :
  stop (create emptyTracker "alpha").2 "alpha" 7 = (NotActive, (create emptyTracker "alpha").2) ∧
  stop (stop alphaStartedAt5 "alpha" 9).2 "alpha" 11
    = (NotActive, (stop alphaStartedAt5 "alpha" 9).2) ∧
  stop alphaStartedAt5 "beta" 7 = (NotFound, alphaStartedAt5).
Proof.
  split; [|split].
  - apply (proj1 (stop_rejected_unchanged (create emptyTracker "alpha").2 "alpha" 7) 0%nat
             {| Name := "alpha"; Logs := []; TotalTime := 0 |}); reflexivity.
  - apply (proj1 (stop_rejected_unchanged (stop alphaStartedAt5 "alpha" 9).2 "alpha" 11) 0%nat
             {| Name := "alpha"; Logs := [{| Start := 5; End := 9 |}]; TotalTime := 4 |});
      reflexivity.
  - apply (proj2 (stop_rejected_unchanged alphaStartedAt5 "beta" 7)).
    intros p Hp. apply list_elem_of_singleton in Hp as ->. discriminate.
Defined.

(** ** Session engine: what a successful start or stop leaves alone *)

Lemma start_Started_inv tracker name now :
  (start tracker name now).1 = Started →
  ∃ i p, findProject tracker name = Some (i, p) ∧ isActive p = false ∧
         (start tracker name now).2
         = {| Projects := <[i:=startedProject p now]> (Projects tracker) |}.
Proof.
  destruct (findProject tracker name) as [[i p]|] eqn:Hf.
  - rewrite (start_found _ _ _ _ _ Hf). destruct (isActive p) eqn:Hp; [done|].
    intros _. by exists i, p.
  - unfold start. by rewrite Hf.
Qed.

Lemma stop_Stopped_inv tracker name now d t :
  (stop tracker name now).1 = Stopped d t →
  ∃ i p init e, findProject tracker name = Some (i, p) ∧
         Logs p = init ++ [e] ∧ End e = zeroTime ∧
         (stop tracker name now).2
         = {| Projects := <[i:=stoppedProject p init e now]> (Projects tracker) |}.
Proof.
  destruct (findProject tracker name) as [[i p]|] eqn:Hf.
  - destruct (isActive p) eqn:Hp.
    + apply isActive_snoc in Hp as (init & e & Hl & He).
      rewrite (stop_found_active _ _ now _ _ _ _ Hf Hl He). intros _.
      by exists i, p, init, e.
    + by rewrite (stop_found_idle _ _ now _ _ Hf Hp).
  - unfold stop. by rewrite Hf.
Qed.

(** C9: a successful [start] or [stop] on [name] rewrites the first project
    with that name and nothing else: the sequence of projects keeps its length
    and order, every project at another index is the same, the rewritten
    project keeps its name, and its entries are the same except for the one
    appended by [start] (which also keeps [TotalTime]) or the last one, whose
    end [stop] writes. *)
Theorem start_stop_frame tracker name now :
  ((start tracker name now).1 = Started →
   ∃ i p p',
     findProject tracker name = Some (i, p) ∧
     Projects (start tracker name now).2 !! i = Some p' ∧
     length (Projects (start tracker name now).2) = length (Projects tracker) ∧
     (∀ j, j ≠ i → Projects (start tracker name now).2 !! j = Projects tracker !! j) ∧
     Name p' = Name p ∧ TotalTime p' = TotalTime p ∧
     length (Logs p') = S (length (Logs p)) ∧
     (∀ k, (k < length (Logs p))%nat → Logs p' !! k = Logs p !! k)) ∧
  ((∃ d t, (stop tracker name now).1 = Stopped d t) →
   ∃ i p p',
     findProject tracker name = Some (i, p) ∧
     Projects (stop tracker name now).2 !! i = Some p' ∧
     length (Projects (stop tracker name now).2) = length (Projects tracker) ∧
     (∀ j, j ≠ i → Projects (stop tracker name now).2 !! j = Projects tracker !! j) ∧
     Name p' = Name p ∧
     length (Logs p') = length (Logs p) ∧
     (∀ k, S k ≠ length (Logs p) → Logs p' !! k = Logs p !! k) ∧
     Start <$> Logs p' = Start <$> Logs p).
Proof.
  split.
  - intros Ho. destruct (start_Started_inv _ _ _ Ho) as (i & p & Hf & _ & ->).
    exists i, p, (startedProject p now). simpl.
    pose proof (proj1 (findProject_Some _ _ _ _) Hf) as (Hi & _ & _).
    apply lookup_lt_Some in Hi as Hlt.
    repeat split; try done.
    + by apply list_lookup_insert_eq.
    + apply length_insert.
    + intros j Hj. by apply list_lookup_insert_ne.
    + rewrite length_app. simpl. lia.
    + intros k Hk. by apply lookup_app_l.
  - intros (d & t & Ho).
    destruct (stop_Stopped_inv _ _ _ _ _ Ho) as (i & p & init & e & Hf & Hl & _ & ->).
    exists i, p, (stoppedProject p init e now). simpl.
    pose proof (proj1 (findProject_Some _ _ _ _) Hf) as (Hi & _ & _).
    apply lookup_lt_Some in Hi as Hlt.
    repeat split; try done.
    + by apply list_lookup_insert_eq.
    + apply length_insert.
    + intros j Hj. by apply list_lookup_insert_ne.
    + rewrite Hl, !length_app. done.
    + intros k Hk. rewrite Hl in *. rewrite length_app in Hk. simpl in Hk.
      destruct (decide (k < length init)%nat) as [Hlt'|Hge].
      * by rewrite !lookup_app_l.
      * rewrite !lookup_app_r by lia.
        destruct (k - length init)%nat as [|n] eqn:Hn; [lia|done].
    + rewrite Hl, !fmap_app. done.
Qed.

Lemma start_stop_frame_witness :
  (∃ i p p',
     findProject (create emptyTracker "alpha").2 "alpha" = Some (i, p) ∧
     Projects alphaStartedAt5 !! i = Some p' ∧
     length (Projects alphaStartedAt5) = length (Projects (create emptyTracker "alpha").2) ∧
     (∀ j, j ≠ i → Projects alphaStartedAt5 !! j
                    = Projects (create emptyTracker "alpha").2 !! j) ∧
     Name p' = Name p ∧ TotalTime p' = TotalTime p ∧
     length (Logs p') = S (length (Logs p)) ∧
     (∀ k, (k < length (Logs p))%nat → Logs p' !! k = Logs p !! k)) ∧
  (∃ i p p',
     findProject alphaStartedAt5 "alpha" = Some (i, p) ∧
     Projects (stop alphaStartedAt5 "alpha" 9).2 !! i = Some p' ∧
     length (Projects (stop alphaStartedAt5 "alpha" 9).2) = length (Projects alphaStartedAt5) ∧
     (∀ j, j ≠ i → Projects (stop alphaStartedAt5 "alpha" 9).2 !! j
                    = Projects alphaStartedAt5 !! j) ∧
     Name p' = Name p ∧
     length (Logs p') = length (Logs p) ∧
     (∀ k, S k ≠ length (Logs p) → Logs p' !! k = Logs p !! k) ∧
     Start <$> Logs p' = Start <$> Logs p).
Proof.
  split.
  - apply (proj1 (start_stop_frame (create emptyTracker "alpha").2 "alpha" 5)).
    reflexivity.
  - apply (proj2 (start_stop_frame alphaStartedAt5 "alpha" 9)).
    exists 4, 4. reflexivity.
Defined.

(** ** Invariant: only the last entry of a project can be open *)

Lemma openOnlyLast_init init e :
  openOnlyLast (init ++ [e]) → Forall (λ x, isOpen x = false) init.
Proof.
  intros H. apply Forall_lookup. intros k x Hk.
  destruct (isOpen x) eqn:Hx; [|done].
  apply lookup_lt_Some in Hk as Hlt.
  assert (S k = length (init ++ [e])) as Hl.
  { apply (H k x); [by apply lookup_app_l_Some|done]. }
  rewrite length_app in Hl. simpl in Hl. lia.
Qed.

Lemma openOnlyLast_snoc init e :
  Forall (λ x, isOpen x = false) init → openOnlyLast (init ++ [e]).
Proof.
  intros H k x Hk Hx. rewrite length_app. simpl.
  apply lookup_app_Some in Hk as [Hk|[Hge Hk]].
  - rewrite Forall_lookup in H. rewrite (H _ _ Hk) in Hx. done.
  - apply lookup_lt_Some in Hk. simpl in Hk. lia.
Qed.

Lemma openOnlyLast_idle p :
  openOnlyLast (Logs p) → isActive p = false → Forall (λ x, isOpen x = false) (Logs p).
Proof.
  unfold isActive. destruct (Logs p) as [|x l] using rev_ind; [by constructor|].
  rewrite last_snoc. intros H Hx. apply Forall_app. split.
  - by eapply openOnlyLast_init.
  - by repeat constructor.
Qed.

Lemma openOnlyLast_unique logs k1 k2 e1 e2 :
  openOnlyLast logs →
  logs !! k1 = Some e1 → logs !! k2 = Some e2 →
  isOpen e1 = true → isOpen e2 = true → k1 = k2.
Proof.
  intros H H1 H2 Ho1 Ho2.
  pose proof (H _ _ H1 Ho1). pose proof (H _ _ H2 Ho2). lia.
Qed.

Lemma create_wellFormed tracker name :
  wellFormedLogs tracker → wellFormedLogs (create tracker name).2.
Proof.
  unfold create, wellFormedLogs. intros H.
  destruct (projectExists tracker name); simpl; [done|].
  apply Forall_app. split; [done|]. repeat constructor. by intros k e Hk.
Qed.

Lemma delete_wellFormed tracker name r :
  wellFormedLogs tracker → wellFormedLogs (delete tracker name r).2.
Proof.
  unfold delete, wellFormedLogs. intros H.
  destruct (findProject tracker name) as [[i p]|]; [|done].
  destruct (_ && _); simpl; [done|].
  apply Forall_app. split; [by apply Forall_take|by apply Forall_drop].
Qed.

Lemma start_wellFormed tracker name now :
  wellFormedLogs tracker → wellFormedLogs (start tracker name now).2.
Proof.
  unfold wellFormedLogs. intros H.
  destruct (findProject tracker name) as [[i p]|] eqn:Hf;
    [|by unfold start; rewrite Hf].
  rewrite (start_found _ _ _ _ _ Hf). destruct (isActive p) eqn:Hp; [done|]. simpl.
  apply Forall_insert; [done|]. simpl.
  apply openOnlyLast_snoc, openOnlyLast_idle; [|done].
  apply findProject_Some in Hf as (Hi & _).
  rewrite Forall_lookup in H. by apply (H _ _ Hi).
Qed.

Lemma stop_wellFormed tracker name now :
  wellFormedLogs tracker → wellFormedLogs (stop tracker name now).2.
Proof.
  unfold wellFormedLogs. intros H.
  destruct (findProject tracker name) as [[i p]|] eqn:Hf;
    [|by unfold stop; rewrite Hf].
  destruct (isActive p) eqn:Hp;
    [|by rewrite (stop_found_idle _ _ now _ _ Hf Hp)].
  apply isActive_snoc in Hp as (init & e & Hl & He).
  rewrite (stop_found_active _ _ now _ _ _ _ Hf Hl He). simpl.
  apply Forall_insert; [done|]. simpl.
  apply openOnlyLast_snoc, (openOnlyLast_init init e).
  apply findProject_Some in Hf as (Hi & _).
  rewrite Forall_lookup in H. rewrite <- Hl. by apply (H _ _ Hi).
Qed.

Lemma reload_wellFormed f tracker :
  wellFormedLogs tracker → wellFormedLogs (reload f tracker).
Proof.
  unfold wellFormedLogs, reload. intros H. simpl. apply Forall_fmap.
  eapply Forall_impl; [exact H|]. by intros p Hp.
Qed.

Lemma run_wellFormed c now tracker :
  wellFormedLogs tracker → wellFormedLogs (run c now tracker).2.
Proof.
  destruct c; simpl;
    auto using create_wellFormed, delete_wellFormed, start_wellFormed, stop_wellFormed.
Qed.

(** C6: in every snapshot the program reaches from an empty store, each
    project has at most one open entry, and an open entry is the last one.
    The empty snapshot satisfies this and every command preserves it. *)
Theorem reachable_open_only_last :
  wellFormedLogs emptyTracker ∧
  (∀ c now tracker, wellFormedLogs tracker → wellFormedLogs (run c now tracker).2) ∧
  (∀ tracker, reachable tracker →
     ∀ p, p ∈ Projects tracker →
       (∀ k e, Logs p !! k = Some e → isOpen e = true → S k = length (Logs p)) ∧
       (∀ k1 k2 e1 e2, Logs p !! k1 = Some e1 → Logs p !! k2 = Some e2 →
                       isOpen e1 = true → isOpen e2 = true → k1 = k2)).
Proof.
  split; [by constructor|]. split; [apply run_wellFormed|].
  intros tracker Hr.
  assert (wellFormedLogs tracker) as Hwf.
  { induction Hr; [by constructor|by apply run_wellFormed|by apply reload_wellFormed]. }
  intros p Hp. unfold wellFormedLogs in Hwf. rewrite Forall_forall in Hwf.
  specialize (Hwf p Hp). split; [exact Hwf|].
  intros k1 k2 e1 e2. by apply openOnlyLast_unique.
Qed.

Lemma reachable_open_only_last_witness :
  let p := {| Name := "alpha";
              Logs := [{| Start := 5; End := 9 |}; {| Start := 12; End := zeroTime |}];
              TotalTime := 4 |} in
  (∀ k e, Logs p !! k = Some e → isOpen e = true → S k = length (Logs p)) ∧
  (∀ k1 k2 e1 e2, Logs p !! k1 = Some e1 → Logs p !! k2 = Some e2 →
                  isOpen e1 = true → isOpen e2 = true → k1 = k2).
Proof.
  apply (proj2 (proj2 reachable_open_only_last) alphaRestarted).
  - unfold alphaRestarted. do 4 apply reachable_run. apply reachable_empty.
  - apply list_elem_of_singleton. reflexivity.
Defined.

(** ** Invariant: [TotalTime] is the sum over the closed entries *)

Lemma closedSum_snoc logs e :
  closedSum (logs ++ [e]) =
    if isOpen e then closedSum logs
    else Int64.add (closedSum logs) (Sub (End e) (Start e)).
Proof.
  induction logs as [|x logs IH]; simpl.
  - destruct (isOpen e); [done|]. apply add_comm.
  - rewrite IH. destruct (isOpen x), (isOpen e); try done.
    apply add_assoc.
Qed.

Lemma create_totals tracker name :
  totalsConsistent tracker → totalsConsistent (create tracker name).2.
Proof.
  unfold create, totalsConsistent. intros H.
  destruct (projectExists tracker name); simpl; [done|].
  apply Forall_app. split; [done|]. by repeat constructor.
Qed.

Lemma delete_totals tracker name r :
  totalsConsistent tracker → totalsConsistent (delete tracker name r).2.
Proof.
  unfold delete, totalsConsistent. intros H.
  destruct (findProject tracker name) as [[i p]|]; [|done].
  destruct (_ && _); simpl; [done|].
  apply Forall_app. split; [by apply Forall_take|by apply Forall_drop].
Qed.

Lemma startedProject_sides p now :
  TotalTime (startedProject p now) = TotalTime p ∧
  closedSum (Logs (startedProject p now)) = closedSum (Logs p).
Proof. split; [done|]. simpl. by rewrite closedSum_snoc. Qed.

Lemma start_totals tracker name now :
  totalsConsistent tracker → totalsConsistent (start tracker name now).2.
Proof.
  unfold totalsConsistent. intros H.
  destruct (findProject tracker name) as [[i p]|] eqn:Hf;
    [|by unfold start; rewrite Hf].
  rewrite (start_found _ _ _ _ _ Hf). destruct (isActive p); [done|]. simpl.
  apply Forall_insert; [done|]. unfold totalMatchesLogs.
  destruct (startedProject_sides p now) as [-> ->].
  apply findProject_Some in Hf as (Hi & _).
  rewrite Forall_lookup in H. by apply (H _ _ Hi).
Qed.

Lemma stoppedProject_sides p init e now :
  Logs p = init ++ [e] → End e = zeroTime → now ≠ zeroTime →
  TotalTime (stoppedProject p init e now) = Int64.add (TotalTime p) (Sub now (Start e)) ∧
  closedSum (Logs (stoppedProject p init e now))
  = Int64.add (closedSum (Logs p)) (Sub now (Start e)).
Proof.
  intros Hl He Hnow. split; [done|]. simpl.
  rewrite Hl, !closedSum_snoc. unfold isOpen. simpl.
  apply IsZero_true in He. apply IsZero_false in Hnow. by rewrite He, Hnow.
Qed.

Lemma stop_totals tracker name now :
  now ≠ zeroTime →
  totalsConsistent tracker → totalsConsistent (stop tracker name now).2.
Proof.
  unfold totalsConsistent. intros Hnow H.
  destruct (findProject tracker name) as [[i p]|] eqn:Hf;
    [|by unfold stop; rewrite Hf].
  destruct (isActive p) eqn:Hp;
    [|by rewrite (stop_found_idle _ _ now _ _ Hf Hp)].
  apply isActive_snoc in Hp as (init & e & Hl & He).
  rewrite (stop_found_active _ _ now _ _ _ _ Hf Hl He). simpl.
  apply Forall_insert; [done|]. unfold totalMatchesLogs.
  destruct (stoppedProject_sides p init e now Hl He Hnow) as [-> ->].
  apply findProject_Some in Hf as (Hi & _).
  rewrite Forall_lookup in H. by rewrite (H _ _ Hi).
Qed.

(** C2, counterexample: "alpha", started at 5, satisfies the equality; after a
    stop at the zero time its [TotalTime] is -5 while no entry of its logs is
    closed, so the sum over the closed entries is 0. *)
Lemma stop_at_zero_time_breaks_total :
  totalsConsistent alphaStartedAt5 ∧
  ∃ p' d t,
    stop alphaStartedAt5 "alpha" zeroTime = (Stopped d t, {| Projects := [p'] |}) ∧
    TotalTime p' = -5 ∧ closedSum (Logs p') = 0.
Proof.
  split.
  - by repeat constructor.
  - by repeat eexists.
Qed.

(** C2 (amended): the equality between [TotalTime] and the sum of
    [End.Sub(Start)] over the closed entries (an [int64] sum) holds in the
    empty snapshot and is preserved by create, delete and start, and by stop
    at an instant that is not the zero time. Create gives the new project 0
    on both sides, start changes neither side of any project, and stop adds
    the same duration to both sides of the stopped project. *)
Theorem totalTime_matches_closed_entries :
  totalsConsistent emptyTracker ∧
  (∀ c now tracker,
     totalsConsistent tracker →
     (∀ name, c = CmdStop name → now ≠ zeroTime) →
     totalsConsistent (run c now tracker).2) ∧
  (∀ tracker name,
     (create tracker name).1 = Created →
     ∃ p, Projects (create tracker name).2 = Projects tracker ++ [p] ∧
          TotalTime p = 0 ∧ closedSum (Logs p) = 0) ∧
  (∀ tracker name now,
     TotalTime <$> Projects (start tracker name now).2 = TotalTime <$> Projects tracker ∧
     (closedSum ∘ Logs) <$> Projects (start tracker name now).2
     = (closedSum ∘ Logs) <$> Projects tracker) ∧
  (∀ tracker name now i p,
     findProject tracker name = Some (i, p) → isActive p = true → now ≠ zeroTime →
     ∃ p' dur,
       Projects (stop tracker name now).2 !! i = Some p' ∧
       TotalTime p' = Int64.add (TotalTime p) dur ∧
       closedSum (Logs p') = Int64.add (closedSum (Logs p)) dur).
Proof.
  split; [by constructor|]. split; [|split; [|split]].
  - intros c now tracker H Hc. destruct c; simpl.
    + by apply create_totals.
    + by apply delete_totals.
    + by apply start_totals.
    + apply stop_totals; [|done]. by eapply Hc.
  - intros tracker name. unfold create.
    destruct (projectExists tracker name); [done|]. intros _. simpl. by eexists.
  - intros tracker name now.
    destruct (findProject tracker name) as [[i p]|] eqn:Hf;
      [|by unfold start; rewrite Hf].
    rewrite (start_found _ _ _ _ _ Hf). destruct (isActive p); [done|]. simpl.
    apply findProject_Some in Hf as (Hi & _).
    rewrite !list_fmap_insert. simpl. rewrite closedSum_snoc. simpl.
    split; apply list_insert_id; by rewrite list_lookup_fmap, Hi.
  - intros tracker name now i p Hf Hp Hnow.
    apply isActive_snoc in Hp as (init & e & Hl & He).
    rewrite (stop_found_active _ _ now _ _ _ _ Hf Hl He). simpl.
    exists (stoppedProject p init e now), (Sub now (Start e)).
    split; [|by apply stoppedProject_sides].
    apply list_lookup_insert_eq. apply findProject_Some in Hf as (Hi & _).
    by eapply lookup_lt_Some.
Qed.

Lemma totalTime_matches_closed_entries_witness :
  totalsConsistent (run (CmdStop "alpha") 9 alphaStartedAt5).2 ∧
  (∃ p, Projects (create emptyTracker "alpha").2 = Projects emptyTracker ++ [p] ∧
        TotalTime p = 0 ∧ closedSum (Logs p) = 0) ∧
  (∃ p' dur,
     Projects (stop alphaStartedAt5 "alpha" 9).2 !! 0%nat = Some p' ∧
     TotalTime p' = Int64.add 0 dur ∧
     closedSum (Logs p') = Int64.add (closedSum [{| Start := 5; End := zeroTime |}]) dur).
Proof.
  split; [|split].
  - apply (proj1 (proj2 totalTime_matches_closed_entries)).
    + by repeat constructor.
    + intros name _. discriminate.
  - apply (proj1 (proj2 (proj2 totalTime_matches_closed_entries))). reflexivity.
  - apply (proj2 (proj2 (proj2 (proj2 totalTime_matches_closed_entries)))
             alphaStartedAt5 "alpha" 9 0%nat
             {| Name := "alpha"; Logs := [{| Start := 5; End := zeroTime |}]; TotalTime := 0 |});
      [reflexivity|reflexivity|discriminate].
Defined.

(** ** The guards of the read-side commands *)

Lemma effectiveTotalAt_idle clock k p :
  isActive p = false → effectiveTotalAt clock k p = (TotalTime p, k).
Proof.
  intros Hp. unfold effectiveTotalAt. rewrite active_guard.
  fold (isActive p). by rewrite Hp.
Qed.

Lemma effectiveTotalAt_active clock k p init e :
  Logs p = init ++ [e] → End e = zeroTime →
  effectiveTotalAt clock k p = (Int64.add (TotalTime p) (Sub (clock k) (Start e)), S k).
Proof.
  intros Hl He. unfold effectiveTotalAt. rewrite active_guard.
  rewrite Hl, last_snoc, lookup_total_last. unfold isOpen.
  apply IsZero_true in He. by rewrite He.
Qed.

Lemma stats_loop_imap clock k i logs :
  stats_loop clock k i logs = imap (λ j e, statsRowOf clock (k + j) (i + j) e) logs.
Proof.
  revert k i. induction logs as [|e logs IH]; intros k i; [done|]. simpl.
  rewrite IH, !Nat.add_0_r. f_equal.
  - unfold statsRowOf, isOpen. by destruct (IsZero (End e)).
  - apply imap_ext. intros j x _. simpl. f_equal; lia.
Qed.

Lemma stats_loop_last clock k i init e :
  last (stats_loop clock k i (init ++ [e]))
  = Some (statsRowOf clock (k + length init) (i + length init) e).
Proof.
  rewrite stats_loop_imap, imap_app. simpl. rewrite last_snoc.
  by rewrite !Nat.add_0_r.
Qed.

(** ** Aggregator: the effective total *)


Lemma stop_active_closes_idle tracker name now i p :
  findProject tracker name = Some (i, p) → isActive p = true → now ≠ zeroTime →
  ∃ p', Projects (stop tracker name now).2 !! i = Some p' ∧ isActive p' = false.
Proof.
  intros Hf Hp Hnow. apply isActive_snoc in Hp as (init & e & Hl & He).
  rewrite (stop_found_active _ _ now _ _ _ _ Hf Hl He). simpl.
  exists (stoppedProject p init e now). split.
  - apply list_lookup_insert_eq. apply findProject_Some in Hf as (Hi & _).
    by eapply lookup_lt_Some.
  - unfold isActive, isOpen. simpl. rewrite last_snoc. simpl.
    by apply IsZero_false.
Qed.

Lemma effectiveTotal_idle p now :
  isActive p = false → effectiveTotal p now = TotalTime p.
Proof. intros Hp. unfold effectiveTotal. by rewrite effectiveTotalAt_idle. Qed.

Lemma effectiveTotal_active p now init e :
  Logs p = init ++ [e] → End e = zeroTime →
  effectiveTotal p now = Int64.add (TotalTime p) (Sub now (Start e)).
Proof.
  intros Hl He. unfold effectiveTotal.
  by rewrite (effectiveTotalAt_active _ _ _ init e).
Qed.

(** C7, counterexample: "alpha", started 5ns after the zero time, is Active;
    at two instants of the year 2026, one second apart, the elapsed time is
    the maximum [Duration] both times, so the effective total is the same. *)
Lemma effective_total_saturates :
  let p := {| Name := "alpha"; Logs := [{| Start := 5; End := zeroTime |}];
              TotalTime := 0 |} in
  let now1 := 63900000000 * Second in
  let now2 := 63900000001 * Second in
  Projects alphaStartedAt5 = [p] ∧ isActive p = true ∧ now1 < now2 ∧
  effectiveTotal p now1 = maxDuration ∧ effectiveTotal p now2 = maxDuration.
Proof. by repeat split. Qed.

(** C7 (amended): the effective total of an Idle project is [TotalTime], at
    every instant; in particular that of a project just stopped at an instant
    other than the zero time. The effective total of an Active project is
    [TotalTime + now.Sub(start of the open entry)] in [int64] arithmetic. For
    an Active project and instants [now1 < now2], the effective total at
    [now2] is strictly greater than at [now1] provided both elapsed times fit
    a [Duration] and both sums fit an [int64]. *)
Theorem effective_total_cases :
  (∀ p now, isActive p = false → effectiveTotal p now = TotalTime p) ∧
  (∀ tracker name now i p,
     findProject tracker name = Some (i, p) → isActive p = true → now ≠ zeroTime →
     ∃ p', Projects (stop tracker name now).2 !! i = Some p' ∧
           ∀ now', effectiveTotal p' now' = TotalTime p') ∧
  (∀ p now, isActive p = true →
     ∃ e, last (Logs p) = Some e ∧
          effectiveTotal p now = Int64.add (TotalTime p) (Sub now (Start e))) ∧
  (∀ p e now1 now2,
     last (Logs p) = Some e → isActive p = true →
     now1 < now2 →
     minDuration <= now1 - Start e → now2 - Start e <= maxDuration →
     Int64.min <= TotalTime p + (now1 - Start e) →
     TotalTime p + (now2 - Start e) <= Int64.max →
     effectiveTotal p now1 < effectiveTotal p now2).
Proof.
  split; [|split; [|split]].
  - intros p now. apply effectiveTotal_idle.
  - intros tracker name now i p Hf Hp Hnow.
    destruct (stop_active_closes_idle tracker name now i p Hf Hp Hnow) as (p' & Hp' & Hidle).
    exists p'. split; [done|]. intros now'. by apply effectiveTotal_idle.
  - intros p now Hp. apply isActive_snoc in Hp as (init & e & Hl & He).
    exists e. split; [by rewrite Hl, last_snoc|].
    by apply (effectiveTotal_active _ _ init).
  - intros p e now1 now2 Hlast Hp Hlt Hmin Hmax Hlo Hhi.
    apply last_Some in Hlast as [init Hl].
    assert (End e = zeroTime) as He.
    { apply isActive_snoc in Hp as (init' & e' & Hl' & He').
      rewrite Hl in Hl'. by apply app_inj_tail in Hl' as [_ ->]. }
    rewrite !(effectiveTotal_active _ _ init e Hl He).
    rewrite !Sub_exact by lia.
    rewrite !add_small; unfold Int64.inRange; lia.
Qed.

Lemma effective_total_cases_witness :
  let p := {| Name := "alpha"; Logs := [{| Start := 5; End := zeroTime |}];
              TotalTime := 0 |} in
  effectiveTotal {| Name := "beta"; Logs := []; TotalTime := 60 * Second |} 7
    = 60 * Second ∧
  (∃ p', Projects (stop alphaStartedAt5 "alpha" 9).2 !! 0%nat = Some p' ∧
         ∀ now', effectiveTotal p' now' = TotalTime p') ∧
  effectiveTotal p 7 < effectiveTotal p 9.
Proof.
  pose proof effective_total_cases as (Hidle & Hstopped & _ & Hmono).
  split; [|split].
  - apply Hidle. reflexivity.
  - apply (Hstopped alphaStartedAt5 "alpha" 9 0%nat
             {| Name := "alpha"; Logs := [{| Start := 5; End := zeroTime |}];
                TotalTime := 0 |}); [reflexivity|reflexivity|discriminate].
  - apply (Hmono _ {| Start := 5; End := zeroTime |}); try reflexivity;
      unfold minDuration, maxDuration, Int64.min, Int64.max; simpl; lia.
Defined.

(** ** Aggregator: the report *)




Lemma fold_add_wrap {A} (f : A → Z) (l : list A) acc :
  Int64.wrap (fold_left (λ a x, Int64.add a (f x)) l acc)
  = Int64.wrap (acc + sumZ (f <$> l)).
Proof.
  revert acc. induction l as [|x l IH]; intros acc; csimpl.
  - by rewrite Z.add_0_r.
  - rewrite IH. unfold Int64.add. rewrite wrap_add_l. f_equal. unfold sumZ. lia.
Qed.

Lemma fold_add_inRange {A} (f : A → Z) (l : list A) acc :
  Int64.inRange acc → Int64.inRange (fold_left (λ a x, Int64.add a (f x)) l acc).
Proof.
  revert acc. induction l as [|x l IH]; intros acc Hacc; [done|]. simpl.
  apply IH, wrap_inRange.
Qed.


(** ** Rewriting the project that was found *)

Lemma findProject_insert tracker name i p p' :
  findProject tracker name = Some (i, p) → Name p' = Name p →
  findProject {| Projects := <[i:=p']> (Projects tracker) |} name = Some (i, p').
Proof.
  intros Hf Hn. apply findProject_Some in Hf as (Hi & Hp & Hlt).
  apply findProject_Some. simpl. split; [|split].
  - apply list_lookup_insert_eq. by eapply lookup_lt_Some.
  - congruence.
  - intros j q Hj Hji. rewrite list_lookup_insert_ne in Hj by lia. by eapply Hlt.
Qed.

Lemma stats_loop_lookup clock k i logs j e :
  logs !! j = Some e →
  stats_loop clock k i logs !! j = Some (statsRowOf clock (k + j) (i + j) e).
Proof. intros Hj. by rewrite stats_loop_imap, list_lookup_imap, Hj. Qed.

Lemma stoppedProject_at_zero p init e :
  Logs p = init ++ [e] → End e = zeroTime →
  sameSessions (stoppedProject p init e zeroTime) p.
Proof.
  intros Hl He. split; [done|]. simpl. rewrite Hl. destruct e as [s t].
  simpl in He. by rewrite He.
Qed.

(** ** Scenarios *)

(** create "alpha"; start at T0; stop at T0+90s: 90s of total time, one
    closed entry, not Active. *)
Example scenario_start_stop :
  stop (start (create emptyTracker "alpha").2 "alpha" T0).2 "alpha" (T0 + 90 * Second)
  = (Stopped (90 * Second) (90 * Second),
     {| Projects := [{| Name := "alpha";
                        Logs := [{| Start := T0; End := T0 + 90 * Second |}];
                        TotalTime := 90 * Second |}] |}).
Proof. reflexivity. Qed.

(** start "alpha" twice in a row: the second call signals AlreadyActive and
    the log count stays 1. *)
Example scenario_start_twice :
  let tracker := (start (create emptyTracker "alpha").2 "alpha" T0).2 in
  start tracker "alpha" (T0 + 1 * Second) = (AlreadyActive, tracker) ∧
  length <$> (Logs <$> Projects tracker) = [1%nat].
Proof. by split. Qed.

(** The report on "alpha", live since 60s, and "beta", with 60s of closed
    time: 60s each, 50% each. *)
Example scenario_report :
  let tracker :=
    {| Projects := Projects (start (create emptyTracker "alpha").2 "alpha" T0).2
                   ++ [{| Name := "beta"; Logs := []; TotalTime := 60 * Second |}] |} in
  ∃ r, report (λ _, T0 + 60 * Second) tracker = Some r ∧
       grandTotal r = 120 * Second ∧
       reportTime <$> rows r = [60 * Second; 60 * Second] ∧
       reportPercent <$> rows r = [50%float; 50%float].
Proof. eexists. repeat split; reflexivity. Qed.

(** * Further properties of the commands *)

(** ** create, delete and the names of the projects *)

Lemma projectExists_true tracker name :
  projectExists tracker name = true ↔ ∃ p, p ∈ Projects tracker ∧ Name p = name.
Proof.
  destruct (projectExists tracker name) eqn:He.
  - split; [intros _|done].
    destruct (findProject tracker name) as [[i p]|] eqn:Hf.
    + apply findProject_Some in Hf as (Hi & Hp & _).
      exists p. split; [|done]. by eapply list_elem_of_lookup_2.
    + apply projectExists_find in Hf. congruence.
  - split; [done|]. intros (p & Hp & Hn).
    apply projectExists_find in He. rewrite findProject_None in He.
    by destruct (He p Hp).
Qed.

Lemma projectExists_in_names tracker name :
  projectExists tracker name = true ↔ name ∈ listNames tracker.
Proof.
  rewrite projectExists_true. unfold listNames. rewrite list_elem_of_fmap.
  split; intros (p & H1 & H2); by exists p.
Qed.

(** X1: The guard of create and the lookup of delete, start, stop and stats agree:
    create refuses a name exactly when the others find a project for it, and
    that is exactly when some project of the snapshot has the name. *)
Theorem projectExists_agrees_with_lookup tracker name :
  (projectExists tracker name = true ↔ ∃ p, p ∈ Projects tracker ∧ Name p = name) ∧
  (projectExists tracker name = true ↔ ∃ i p, findProject tracker name = Some (i, p)) ∧
  (projectExists tracker name = true ↔ name ∈ listNames tracker).
Proof.
  split; [apply projectExists_true|]. split.
  - destruct (findProject tracker name) as [[i p]|] eqn:Hf.
    + split; [by eauto|]. intros _.
      destruct (projectExists tracker name) eqn:He; [done|].
      apply projectExists_find in He. congruence.
    + apply projectExists_find in Hf. rewrite Hf. split; [done|].
      by intros (i & p & ?).
  - apply projectExists_in_names.
Qed.

Lemma create_fresh tracker name :
  projectExists tracker name = false →
  create tracker name
  = (Created,
     {| Projects := Projects tracker ++ [{| Name := name; Logs := []; TotalTime := 0 |}] |}).
Proof. intros He. unfold create. by rewrite He. Qed.

Lemma projectExists_after_create tracker name :
  projectExists (create tracker name).2 name = true.
Proof.
  destruct (projectExists tracker name) eqn:He.
  - unfold create. by rewrite He.
  - rewrite create_fresh by done. apply projectExists_true. eexists. split.
    + simpl. apply elem_of_app. right. by apply list_elem_of_singleton.
    + done.
Qed.

(** X2: create on a name that no project has appends one project with that name,
    no logs and a zero total, Idle, after the existing ones, which keep their
    places; on a name that exists it changes nothing. Either way the name
    exists afterwards, and creating it again is refused and changes nothing. *)
Theorem create_appends_once tracker name :
  (projectExists tracker name = false →
   ∃ p, create tracker name = (Created, {| Projects := Projects tracker ++ [p] |}) ∧
        Name p = name ∧ Logs p = [] ∧ TotalTime p = 0 ∧ isActive p = false ∧
        (∀ j q, Projects tracker !! j = Some q → Projects (create tracker name).2 !! j = Some q) ∧
        listNames (create tracker name).2 = listNames tracker ++ [name]) ∧
  (projectExists tracker name = true → create tracker name = (AlreadyExists, tracker)) ∧
  projectExists (create tracker name).2 name = true ∧
  create (create tracker name).2 name = (AlreadyExists, (create tracker name).2).
Proof.
  split; [|split; [|split]].
  - intros He. rewrite create_fresh by done. eexists. split; [done|]. simpl.
    repeat split; try done.
    + intros j q Hj. by apply lookup_app_l_Some.
    + unfold listNames. simpl. by rewrite fmap_app.
  - intros He. unfold create. by rewrite He.
  - apply projectExists_after_create.
  - unfold create at 1. by rewrite projectExists_after_create.
Qed.

Lemma create_appends_once_witness :
  (∃ p, create alphaStartedAt5 "beta"
        = (Created, {| Projects := Projects alphaStartedAt5 ++ [p] |}) ∧
        Name p = "beta" ∧ Logs p = [] ∧ TotalTime p = 0 ∧ isActive p = false ∧
        (∀ j q, Projects alphaStartedAt5 !! j = Some q →
                Projects (create alphaStartedAt5 "beta").2 !! j = Some q) ∧
        listNames (create alphaStartedAt5 "beta").2 = listNames alphaStartedAt5 ++ ["beta"]) ∧
  create alphaStartedAt5 "alpha" = (AlreadyExists, alphaStartedAt5).
Proof.
  split.
  - apply (proj1 (create_appends_once alphaStartedAt5 "beta")). reflexivity.
  - apply (proj1 (proj2 (create_appends_once alphaStartedAt5 "alpha"))). reflexivity.
Defined.

Lemma delete_found tracker name r i p :
  findProject tracker name = Some (i, p) →
  delete tracker name r =
    if bool_decide (r ≠ "y"%string) && bool_decide (r ≠ "Y"%string) then (Cancelled, tracker)
    else (Deleted, {| Projects := take i (Projects tracker) ++ drop (S i) (Projects tracker) |}).
Proof.
  intros Hf. unfold delete. rewrite Hf.
  by replace (i + 1)%nat with (S i) by lia.
Qed.

Lemma answer_yes r :
  r = "y"%string ∨ r = "Y"%string →
  bool_decide (r ≠ "y"%string) && bool_decide (r ≠ "Y"%string) = false.
Proof. by intros [-> | ->]. Qed.

Lemma answer_no r :
  r ≠ "y"%string → r ≠ "Y"%string →
  bool_decide (r ≠ "y"%string) && bool_decide (r ≠ "Y"%string) = true.
Proof. intros H1 H2. by rewrite !bool_decide_eq_true_2. Qed.

Lemma names_take_drop tracker i :
  Name <$> (take i (Projects tracker) ++ drop (S i) (Projects tracker))
  = base.delete i (listNames tracker).
Proof. unfold listNames. by rewrite delete_take_drop, fmap_app, fmap_take, fmap_drop. Qed.

Lemma uniqueNames_removed tracker name i p :
  uniqueNames tracker →
  findProject tracker name = Some (i, p) →
  name ∉ base.delete i (listNames tracker).
Proof.
  unfold uniqueNames. intros Hu Hf Hin.
  apply findProject_Some in Hf as (Hi & Hn & _).
  assert (listNames tracker !! i = Some name) as Hi'.
  { unfold listNames. by rewrite list_lookup_fmap, Hi, <- Hn. }
  apply list_elem_of_lookup in Hin as [j Hj].
  apply lookup_lt_Some in Hi' as Hlt.
  destruct (decide (j < i)%nat) as [Hji|Hji].
  - rewrite list_lookup_delete_lt in Hj by done.
    pose proof (NoDup_lookup _ _ _ _ Hu Hi' Hj). lia.
  - rewrite list_lookup_delete_ge in Hj by lia.
    pose proof (NoDup_lookup _ _ _ _ Hu Hi' Hj). lia.
Qed.

(** X3: delete finds the first project with the name. If none has it, or the
    answer at the prompt is neither "y" nor "Y", the snapshot is unchanged.
    Otherwise that project alone is removed: the projects before it keep
    their places and those after it move up by one, in order. When the names
    of the snapshot are pairwise distinct, the name no longer exists
    afterwards. *)
Theorem delete_removes_first tracker name r :
  ((∀ p, p ∈ Projects tracker → Name p ≠ name) →
   delete tracker name r = (NotFound, tracker)) ∧
  (∀ i p, findProject tracker name = Some (i, p) →
     (r ≠ "y"%string → r ≠ "Y"%string → delete tracker name r = (Cancelled, tracker)) ∧
     (r = "y"%string ∨ r = "Y"%string →
      (delete tracker name r).1 = Deleted ∧
      S (length (Projects (delete tracker name r).2)) = length (Projects tracker) ∧
      (∀ j, (j < i)%nat →
            Projects (delete tracker name r).2 !! j = Projects tracker !! j) ∧
      (∀ j, (i ≤ j)%nat →
            Projects (delete tracker name r).2 !! j = Projects tracker !! S j) ∧
      (uniqueNames tracker → projectExists (delete tracker name r).2 name = false))).
Proof.
  split.
  - intros Hn. apply findProject_None in Hn. unfold delete. by rewrite Hn.
  - intros i p Hf. rewrite (delete_found _ _ _ _ _ Hf). split.
    + intros H1 H2. by rewrite answer_no.
    + intros Hy. rewrite (answer_yes _ Hy). simpl.
      pose proof (proj1 (findProject_Some _ _ _ _) Hf) as (Hi & _).
      apply lookup_lt_Some in Hi as Hlt.
      rewrite <- delete_take_drop. repeat split.
      * rewrite length_delete by eauto. lia.
      * intros j Hj. by apply list_lookup_delete_lt.
      * intros j Hj. by apply list_lookup_delete_ge.
      * intros Hu.
        destruct (projectExists _ name) eqn:He; [|done]. exfalso.
        apply projectExists_in_names in He.
        unfold listNames in He. simpl in He.
        rewrite delete_take_drop, names_take_drop in He.
        by eapply uniqueNames_removed.
Qed.

Lemma delete_removes_first_witness :
  delete alphaLiveBetaFixed "gamma" "y" = (NotFound, alphaLiveBetaFixed) ∧
  delete alphaLiveBetaFixed "alpha" "n" = (Cancelled, alphaLiveBetaFixed) ∧
  (delete alphaLiveBetaFixed "alpha" "Y").1 = Deleted ∧
  S (length (Projects (delete alphaLiveBetaFixed "alpha" "Y").2))
  = length (Projects alphaLiveBetaFixed) ∧
  (∀ j, (j < 0)%nat →
        Projects (delete alphaLiveBetaFixed "alpha" "Y").2 !! j
        = Projects alphaLiveBetaFixed !! j) ∧
  (∀ j, (0 ≤ j)%nat →
        Projects (delete alphaLiveBetaFixed "alpha" "Y").2 !! j
        = Projects alphaLiveBetaFixed !! S j) ∧
  (uniqueNames alphaLiveBetaFixed →
   projectExists (delete alphaLiveBetaFixed "alpha" "Y").2 "alpha" = false).
Proof.
  split; [|split].
  - apply (proj1 (delete_removes_first alphaLiveBetaFixed "gamma" "y")).
    intros p Hp. repeat (apply elem_of_cons in Hp as [-> | Hp]; [discriminate|]).
    by apply elem_of_nil in Hp.
  - apply (proj2 (delete_removes_first alphaLiveBetaFixed "alpha" "n") 0%nat
             {| Name := "alpha"; Logs := [{| Start := 5; End := zeroTime |}]; TotalTime := 0 |});
      [reflexivity|discriminate|discriminate].
  - apply (proj2 (delete_removes_first alphaLiveBetaFixed "alpha" "Y") 0%nat
             {| Name := "alpha"; Logs := [{| Start := 5; End := zeroTime |}]; TotalTime := 0 |});
      [reflexivity|by right].
Defined.

(** X4: Creating a project whose name is new and deleting it at once (answer
    "y" or "Y") gives back the snapshot. *)
Theorem create_then_delete tracker name r :
  projectExists tracker name = false →
  r = "y"%string ∨ r = "Y"%string →
  delete (create tracker name).2 name r = (Deleted, tracker).
Proof.
  intros He Hy. rewrite create_fresh by done. simpl.
  apply projectExists_find in He.
  assert (findProject
            {| Projects := Projects tracker
                           ++ [{| Name := name; Logs := []; TotalTime := 0 |}] |} name
          = Some (length (Projects tracker),
                  {| Name := name; Logs := []; TotalTime := 0 |})) as Hf.
  { unfold findProject in *. simpl. rewrite list_find_app_r by done. simpl.
    by rewrite decide_True. }
  rewrite (delete_found _ _ _ _ _ Hf), (answer_yes _ Hy). simpl.
  rewrite take_app_length.
  replace (S (length (Projects tracker))) with (length (Projects tracker) + 1)%nat by lia.
  rewrite drop_app_add. simpl. rewrite app_nil_r. by destruct tracker.
Qed.

Lemma create_then_delete_witness :
  delete (create alphaStartedAt5 "beta").2 "beta" "y" = (Deleted, alphaStartedAt5).
Proof. apply (create_then_delete alphaStartedAt5 "beta" "y"); [reflexivity|by left]. Defined.

(** ** The names of a snapshot stay pairwise distinct *)

Lemma names_insert tracker i p p' :
  Projects tracker !! i = Some p → Name p' = Name p →
  Name <$> <[i:=p']> (Projects tracker) = listNames tracker.
Proof.
  intros Hi Hn. unfold listNames. rewrite list_fmap_insert, Hn.
  apply list_insert_id. by rewrite list_lookup_fmap, Hi.
Qed.

Lemma start_names tracker name now :
  listNames (start tracker name now).2 = listNames tracker.
Proof.
  destruct (findProject tracker name) as [[i p]|] eqn:Hf;
    [|by unfold start; rewrite Hf].
  rewrite (start_found _ _ _ _ _ Hf). destruct (isActive p); [done|].
  apply findProject_Some in Hf as (Hi & _). by apply (names_insert _ _ p).
Qed.

Lemma stop_names tracker name now :
  listNames (stop tracker name now).2 = listNames tracker.
Proof.
  destruct (findProject tracker name) as [[i p]|] eqn:Hf;
    [|by unfold stop; rewrite Hf].
  destruct (isActive p) eqn:Hp;
    [|by rewrite (stop_found_idle _ _ now _ _ Hf Hp)].
  apply isActive_snoc in Hp as (init & e & Hl & He).
  rewrite (stop_found_active _ _ now _ _ _ _ Hf Hl He).
  apply findProject_Some in Hf as (Hi & _). by apply (names_insert _ _ p).
Qed.

Lemma run_uniqueNames c now tracker :
  uniqueNames tracker → uniqueNames (run c now tracker).2.
Proof.
  unfold uniqueNames. intros Hu. destruct c as [name|name r|name|name]; simpl.
  - destruct (projectExists tracker name) eqn:He.
    + unfold create. by rewrite He.
    + rewrite create_fresh by done. unfold listNames. simpl. rewrite fmap_app. simpl.
      apply NoDup_app. split; [done|]. split; [|apply NoDup_singleton].
      intros x Hx Hx'. apply list_elem_of_singleton in Hx' as ->.
      apply projectExists_in_names in Hx. congruence.
  - destruct (findProject tracker name) as [[i p]|] eqn:Hf;
      [|by unfold delete; rewrite Hf].
    rewrite (delete_found _ _ _ _ _ Hf). destruct (_ && _); [done|].
    unfold listNames. simpl. rewrite names_take_drop.
    eapply sublist_NoDup; [done|]. apply sublist_delete.
  - by rewrite start_names.
  - by rewrite stop_names.
Qed.

(** X5: If the names of a snapshot are pairwise distinct, they still are after
    any command: create refuses a name that exists, and delete, start and stop
    add no name. In such a snapshot a name designates at most one project, and
    it is the one that the commands find. *)
Theorem unique_names_preserved :
  (∀ c now tracker, uniqueNames tracker → uniqueNames (run c now tracker).2) ∧
  (∀ tracker, uniqueNames tracker →
     ∀ i j p q, Projects tracker !! i = Some p → Projects tracker !! j = Some q →
                Name p = Name q → i = j ∧ findProject tracker (Name p) = Some (i, p)).
Proof.
  split; [apply run_uniqueNames|]. intros tracker Hu.
  assert (∀ i j p q, Projects tracker !! i = Some p → Projects tracker !! j = Some q →
                     Name p = Name q → i = j) as Hinj.
  { intros i j p q Hi Hj Hn. apply (NoDup_lookup _ i j (Name p) Hu).
    - unfold listNames. by rewrite list_lookup_fmap, Hi.
    - unfold listNames. by rewrite list_lookup_fmap, Hj, Hn. }
  intros i j p q Hi Hj Hn. split; [by eapply Hinj|].
  apply findProject_Some. split; [done|]. split; [done|].
  intros k x Hk Hlt Hx. pose proof (Hinj _ _ _ _ Hk Hi Hx). lia.
Qed.

Lemma unique_names_preserved_witness :
  uniqueNames (run (CmdCreate "gamma") 7 alphaLiveBetaFixed).2 ∧
  ∀ i j p q, Projects alphaLiveBetaFixed !! i = Some p →
             Projects alphaLiveBetaFixed !! j = Some q →
             Name p = Name q →
             i = j ∧ findProject alphaLiveBetaFixed (Name p) = Some (i, p).
Proof.
  assert (uniqueNames alphaLiveBetaFixed) as Hu.
  { unfold uniqueNames. apply (bool_decide_unpack _). by compute. }
  split.
  - by apply (proj1 unique_names_preserved).
  - by apply (proj2 unique_names_preserved).
Defined.

(** ** How start and stop compose *)

(** X7: start then stop on an Idle project: the start succeeds and the project
    is Active, so that a second start is refused; the stop at [t2] then
    succeeds and leaves the project with one more entry, from [t1] to [t2],
    and with [t2.Sub(t1)] added to its total; when [t2] is not the zero time
    the project is Idle again and a second stop is refused. *)
Theorem start_then_stop tracker name t1 t2 i p :
  findProject tracker name = Some (i, p) →
  isActive p = false →
  let started := (start tracker name t1).2 in
  let p' := {| Name := Name p;
               Logs := Logs p ++ [{| Start := t1; End := t2 |}];
               TotalTime := Int64.add (TotalTime p) (Sub t2 t1) |} in
  (start tracker name t1).1 = Started ∧
  (∀ now, start started name now = (AlreadyActive, started)) ∧
  stop started name t2
  = (Stopped (Sub t2 t1) (TotalTime p'), {| Projects := <[i:=p']> (Projects tracker) |}) ∧
  (t2 ≠ zeroTime →
   ∀ now, stop (stop started name t2).2 name now = (NotActive, (stop started name t2).2)).
Proof.
  intros Hf Hp. simpl. rewrite (start_found _ _ t1 _ _ Hf), Hp. simpl.
  pose proof (findProject_insert _ _ _ _ (startedProject p t1) Hf eq_refl) as Hf1.
  assert (isActive (startedProject p t1) = true) as Hp1.
  { apply isActive_snoc. by eexists _, _. }
  assert (stop {| Projects := <[i:=startedProject p t1]> (Projects tracker) |} name t2
          = (Stopped (Sub t2 t1) (Int64.add (TotalTime p) (Sub t2 t1)),
             {| Projects :=
                  <[i:={| Name := Name p;
                          Logs := Logs p ++ [{| Start := t1; End := t2 |}];
                          TotalTime := Int64.add (TotalTime p) (Sub t2 t1) |}]>
                    (Projects tracker) |})) as Hstop.
  { rewrite (stop_found_active _ _ t2 _ _ (Logs p) {| Start := t1; End := zeroTime |} Hf1);
      [|done|done].
    simpl. by rewrite list_insert_insert_eq. }
  split; [done|]. split; [|split].
  - intros now. by rewrite (start_found _ _ now _ _ Hf1), Hp1.
  - done.
  - intros Hnz now. rewrite Hstop. simpl.
    eapply stop_found_idle.
    + by apply (findProject_insert _ _ _ p).
    + unfold isActive, isOpen. simpl. rewrite last_snoc. simpl. by apply IsZero_false.
Qed.

Lemma start_then_stop_witness :
  let tracker := (create emptyTracker "alpha").2 in
  let started := (start tracker "alpha" T0).2 in
  let p' := {| Name := "alpha";
               Logs := [] ++ [{| Start := T0; End := T0 + 90 * Second |}];
               TotalTime := Int64.add 0 (Sub (T0 + 90 * Second) T0) |} in
  (start tracker "alpha" T0).1 = Started ∧
  (∀ now, start started "alpha" now = (AlreadyActive, started)) ∧
  stop started "alpha" (T0 + 90 * Second)
  = (Stopped (Sub (T0 + 90 * Second) T0) (TotalTime p'),
     {| Projects := <[0%nat:=p']> (Projects tracker) |}) ∧
  (T0 + 90 * Second ≠ zeroTime →
   ∀ now, stop (stop started "alpha" (T0 + 90 * Second)).2 "alpha" now
          = (NotActive, (stop started "alpha" (T0 + 90 * Second)).2)).
Proof.
  apply (start_then_stop (create emptyTracker "alpha").2 "alpha" T0 (T0 + 90 * Second) 0%nat
           {| Name := "alpha"; Logs := []; TotalTime := 0 |}); reflexivity.
Defined.

Lemma findProject_insert_other tracker i p p' n :
  Projects tracker !! i = Some p → Name p' = Name p →
  findProject {| Projects := <[i:=p']> (Projects tracker) |} n
  = match findProject tracker n with
    | Some (j, q) => Some (j, if decide (j = i) then p' else q)
    | None => None
    end.
Proof.
  intros Hi Hn. apply lookup_lt_Some in Hi as Hlt.
  destruct (findProject tracker n) as [[j q]|] eqn:Hf.
  - apply findProject_Some in Hf as (Hj & Hq & Hbefore).
    apply findProject_Some. simpl. split; [|split].
    + case_decide as Hji.
      * subst j. by apply list_lookup_insert_eq.
      * by rewrite list_lookup_insert_ne.
    + case_decide as Hji; [|done]. subst j. congruence.
    + intros k x Hk Hkj. destruct (decide (k = i)) as [->|Hki].
      * rewrite list_lookup_insert_eq in Hk by done. injection Hk as <-.
        rewrite Hn. by eapply Hbefore.
      * rewrite list_lookup_insert_ne in Hk by done. by eapply Hbefore.
  - rewrite findProject_None in Hf. apply findProject_None. simpl.
    intros x Hx. apply list_elem_of_lookup in Hx as [k Hk].
    destruct (decide (k = i)) as [->|Hki].
    + rewrite list_lookup_insert_eq in Hk by done. injection Hk as <-.
      rewrite Hn. apply Hf. by eapply list_elem_of_lookup_2.
    + rewrite list_lookup_insert_ne in Hk by done. apply Hf.
      by eapply list_elem_of_lookup_2.
Qed.

Lemma start_applyFound tracker name now :
  start tracker name now = applyFound (startStep now) name tracker.
Proof.
  unfold applyFound, startStep.
  destruct (findProject tracker name) as [[i p]|] eqn:Hf;
    [|by unfold start; rewrite Hf].
  rewrite (start_found _ _ _ _ _ Hf). destruct (isActive p); [|done]. simpl.
  apply findProject_Some in Hf as (Hi & _).
  rewrite (list_insert_id _ _ _ Hi). by destruct tracker.
Qed.

Lemma stop_applyFound tracker name now :
  stop tracker name now = applyFound (stopStep now) name tracker.
Proof.
  unfold applyFound, stopStep.
  destruct (findProject tracker name) as [[i p]|] eqn:Hf;
    [|by unfold stop; rewrite Hf].
  destruct (isActive p) eqn:Hp.
  - apply isActive_snoc in Hp as (init & e & Hl & He).
    rewrite (stop_found_active _ _ now _ _ _ _ Hf Hl He).
    rewrite Hl, last_snoc, removelast_last. unfold isOpen.
    apply IsZero_true in He. by rewrite He.
  - rewrite (stop_found_idle _ _ now _ _ Hf Hp).
    unfold isActive in Hp. apply findProject_Some in Hf as (Hi & _).
    destruct (last (Logs p)) as [e|]; [rewrite Hp|]; simpl;
      rewrite (list_insert_id _ _ _ Hi); by destruct tracker.
Qed.

Lemma startStep_name now p : Name (startStep now p).2 = Name p.
Proof. unfold startStep. by destruct (isActive p). Qed.

Lemma stopStep_name now p : Name (stopStep now p).2 = Name p.
Proof.
  unfold stopStep. destruct (last (Logs p)) as [e|]; [|done]. by destruct (isOpen e).
Qed.

Lemma applyFound_commute f g a b tracker :
  a ≠ b →
  (∀ p, Name (f p).2 = Name p) → (∀ p, Name (g p).2 = Name p) →
  applyFound g b (applyFound f a tracker).2
  = ((applyFound g b tracker).1, (applyFound f a (applyFound g b tracker).2).2).
Proof.
  intros Hab Hf Hg. unfold applyFound.
  destruct (findProject tracker a) as [[i p]|] eqn:Ha;
    destruct (findProject tracker b) as [[j q]|] eqn:Hb; simpl.
  - pose proof (proj1 (findProject_Some _ _ _ _) Ha) as (Hi & Hna & _).
    pose proof (proj1 (findProject_Some _ _ _ _) Hb) as (Hj & Hnb & _).
    assert (i ≠ j) as Hij by (intros ->; congruence).
    rewrite (findProject_insert_other _ _ _ _ b Hi (Hf p)), Hb.
    rewrite (findProject_insert_other _ _ _ _ a Hj (Hg q)), Ha.
    rewrite !decide_False by done. simpl.
    by rewrite list_insert_insert_ne by done.
  - pose proof (proj1 (findProject_Some _ _ _ _) Ha) as (Hi & _).
    by rewrite (findProject_insert_other _ _ _ _ b Hi (Hf p)), Hb, Ha.
  - pose proof (proj1 (findProject_Some _ _ _ _) Hb) as (Hj & _).
    by rewrite (findProject_insert_other _ _ _ _ a Hj (Hg q)), Ha, Hb.
  - by rewrite Ha, Hb.
Qed.

Lemma session_applyFound c name now :
  sessionCommand c name →
  ∃ f, (∀ p, Name (f p).2 = Name p) ∧ ∀ tracker, run c now tracker = applyFound f name tracker.
Proof.
  intros [-> | ->]; simpl.
  - exists (startStep now). split; [apply startStep_name|]. intros. apply start_applyFound.
  - exists (stopStep now). split; [apply stopStep_name|]. intros. apply stop_applyFound.
Qed.

(** X8: Starts and stops on two different names do not interfere: run in either
    order they leave the same snapshot, and each prints what it would have
    printed had the other not run. *)
Theorem sessions_on_distinct_names_commute c1 c2 a b t1 t2 tracker :
  a ≠ b → sessionCommand c1 a → sessionCommand c2 b →
  (run c2 t2 (run c1 t1 tracker).2).2 = (run c1 t1 (run c2 t2 tracker).2).2 ∧
  (run c2 t2 (run c1 t1 tracker).2).1 = (run c2 t2 tracker).1 ∧
  (run c1 t1 (run c2 t2 tracker).2).1 = (run c1 t1 tracker).1.
Proof.
  intros Hab H1 H2.
  destruct (session_applyFound c1 a t1 H1) as (f & Hf & Hrun1).
  destruct (session_applyFound c2 b t2 H2) as (g & Hg & Hrun2).
  rewrite !Hrun1, !Hrun2.
  rewrite (applyFound_commute f g a b tracker Hab Hf Hg). simpl.
  split; [done|]. split; [done|].
  by rewrite (applyFound_commute g f b a tracker (not_eq_sym Hab) Hg Hf).
Qed.

Lemma sessions_on_distinct_names_commute_witness :
  (run (CmdStop "alpha") 9 (run (CmdStart "beta") 7 alphaLiveBetaFixed).2).2
  = (run (CmdStart "beta") 7 (run (CmdStop "alpha") 9 alphaLiveBetaFixed).2).2 ∧
  (run (CmdStop "alpha") 9 (run (CmdStart "beta") 7 alphaLiveBetaFixed).2).1
  = (run (CmdStop "alpha") 9 alphaLiveBetaFixed).1 ∧
  (run (CmdStart "beta") 7 (run (CmdStop "alpha") 9 alphaLiveBetaFixed).2).1
  = (run (CmdStart "beta") 7 alphaLiveBetaFixed).1.
Proof.
  apply (sessions_on_distinct_names_commute
           (CmdStart "beta") (CmdStop "alpha") "beta" "alpha" 7 9 alphaLiveBetaFixed).
  - discriminate.
  - by left.
  - by right.
Defined.

(** ** What start, stop and create never touch *)

Lemma startStep_keeps now p k e :
  Logs p !! k = Some e → Logs (startStep now p).2 !! k = Some e.
Proof.
  intros Hk. unfold startStep. destruct (isActive p); [done|]. simpl.
  by apply lookup_app_l_Some.
Qed.

Lemma stopStep_keeps now p k e :
  Logs p !! k = Some e → End e ≠ zeroTime → Logs (stopStep now p).2 !! k = Some e.
Proof.
  intros Hk He. unfold stopStep.
  destruct (last (Logs p)) as [x|] eqn:Hlast; [|done].
  destruct (isOpen x) eqn:Hx; [|done]. simpl.
  apply last_Some in Hlast as [init Hl]. rewrite Hl in *. rewrite removelast_last.
  apply lookup_app_Some in Hk as [Hk|[Hge Hk]].
  - by apply lookup_app_l_Some.
  - destruct (k - length init)%nat; [|done]. simpl in Hk. injection Hk as ->.
    apply IsZero_true in Hx. done.
Qed.

Lemma applyFound_keeps f name tracker j p :
  Projects tracker !! j = Some p →
  ∃ p', Projects (applyFound f name tracker).2 !! j = Some p' ∧ (p' = p ∨ p' = (f p).2).
Proof.
  intros Hj. unfold applyFound.
  destruct (findProject tracker name) as [[i q]|] eqn:Hf; [|by eauto]. simpl.
  apply findProject_Some in Hf as (Hi & _).
  destruct (decide (i = j)) as [->|Hij].
  - exists (f p).2. split; [|by right].
    rewrite list_lookup_insert_eq by (by eapply lookup_lt_Some). congruence.
  - exists p. split; [|by left]. by rewrite list_lookup_insert_ne.
Qed.

(** X9: A closed entry is never rewritten: after create, start or stop, whatever
    the name and the instant, every project is still at its index with its
    name, and each of its closed entries is still at its place in the logs,
    unchanged. Only delete removes history. *)
Theorem closed_entries_are_kept c now tracker j p k e :
  (∀ name r, c ≠ CmdDelete name r) →
  Projects tracker !! j = Some p →
  Logs p !! k = Some e →
  End e ≠ zeroTime →
  ∃ p', Projects (run c now tracker).2 !! j = Some p' ∧
        Name p' = Name p ∧ Logs p' !! k = Some e.
Proof.
  intros Hc Hj Hk He. destruct c as [name|name r|name|name]; simpl.
  - exists p. split; [|done]. unfold create.
    destruct (projectExists tracker name); simpl; [done|]. by apply lookup_app_l_Some.
  - by destruct (Hc name r).
  - rewrite start_applyFound.
    destruct (applyFound_keeps (startStep now) name tracker j p Hj) as (p' & Hp' & [->| ->]).
    + by exists p.
    + eexists. split; [done|]. split; [apply startStep_name|by apply startStep_keeps].
  - rewrite stop_applyFound.
    destruct (applyFound_keeps (stopStep now) name tracker j p Hj) as (p' & Hp' & [->| ->]).
    + by exists p.
    + eexists. split; [done|]. split; [apply stopStep_name|by apply stopStep_keeps].
Qed.

Lemma closed_entries_are_kept_witness :
  ∃ p', Projects (run (CmdStop "alpha") 20 alphaRestarted).2 !! 0%nat = Some p' ∧
        Name p' = "alpha" ∧ Logs p' !! 0%nat = Some {| Start := 5; End := 9 |}.
Proof.
  apply (closed_entries_are_kept (CmdStop "alpha") 20 alphaRestarted 0%nat
           {| Name := "alpha";
              Logs := [{| Start := 5; End := 9 |}; {| Start := 12; End := zeroTime |}];
              TotalTime := 4 |} 0%nat {| Start := 5; End := 9 |});
    [discriminate|reflexivity|reflexivity|discriminate].
Defined.

(** ** status and stats *)

Lemma openStart_total p :
  isActive p = true → Start (Logs p !!! (length (Logs p) - 1)%nat) = openStart p.
Proof.
  intros Hp. apply isActive_snoc in Hp as (init & e & Hl & _).
  unfold openStart. by rewrite Hl, last_snoc, lookup_total_last.
Qed.

Lemma status_loop_imap clock k ps :
  status_loop clock k ps
  = imap (λ j p, statusRowOf clock (k + j) p) (filter (λ p, isActive p = true) ps).
Proof.
  revert k. induction ps as [|p ps IH]; intros k; [done|]. simpl.
  rewrite active_guard. fold (isActive p). rewrite filter_cons.
  case_decide as Hp.
  - rewrite Hp. simpl. rewrite IH, Nat.add_0_r. f_equal.
    + unfold statusRowOf. by rewrite openStart_total.
    + apply imap_ext. intros j x _. simpl. f_equal. lia.
  - apply not_true_is_false in Hp. rewrite Hp. apply IH.
Qed.

Lemma filter_active_nil (ps : list Project) :
  filter (λ p, isActive p = true) ps = [] ↔ Forall (λ p, isActive p = false) ps.
Proof.
  induction ps as [|p ps IH]; [by split; [constructor|]|].
  rewrite filter_cons, Forall_cons. case_decide as Hp.
  - split; [done|]. intros [Hp' _]. congruence.
  - rewrite IH. apply not_true_is_false in Hp. by split; [|intros [_ ?]].
Qed.

(** X10: status prints one row per Active project, in the order of the snapshot,
    with the start of its open entry; it reads the clock once per row, so the
    elapsed time of the [j]-th row comes from the [j]-th reading. It prints
    "None" exactly when every project is Idle. *)
Theorem status_rows clock tracker :
  status clock tracker
  = imap (λ j p, {| statusName := Name p;
                    statusStart := openStart p;
                    statusElapsed := Sub (clock j) (openStart p) |})
         (filter (λ p, isActive p = true) (Projects tracker)) ∧
  (status clock tracker = [] ↔ Forall (λ p, isActive p = false) (Projects tracker)).
Proof.
  unfold status. rewrite status_loop_imap. split; [done|].
  rewrite <- (length_zero_iff_nil (imap _ _)), length_imap, length_zero_iff_nil.
  apply filter_active_nil.
Qed.

Lemma stats_loop_indices clock k i logs :
  statsIndex <$> stats_loop clock k i logs = seq (i + 1) (length logs) ∧
  statsStart <$> stats_loop clock k i logs = Start <$> logs.
Proof.
  revert k i. induction logs as [|e logs IH]; intros k i; [done|].
  destruct (IH (S k) (S i)) as [IH1 IH2]. csimpl. rewrite IH1, IH2.
  by destruct (negb _).
Qed.

(** X11: stats on a name that no project has prints "not found". Otherwise it
    shows the first project with that name: the number of its entries, its
    stored [TotalTime] (without live addition), and one row per entry, in
    order, numbered from 1, with the start of the entry; the row of the
    [j]-th entry is open, with the duration up to the [j]-th reading of the
    clock, if its end is the zero time, and shows its end and the fixed
    duration otherwise. *)
Theorem stats_shape clock tracker name :
  ((∀ p, p ∈ Projects tracker → Name p ≠ name) → stats clock tracker name = None) ∧
  (∀ i p, findProject tracker name = Some (i, p) →
     ∃ v, stats clock tracker name = Some v ∧
          statsSessions v = length (Logs p) ∧
          statsTotal v = TotalTime p ∧
          length (statsRows v) = length (Logs p) ∧
          statsIndex <$> statsRows v = seq 1 (length (Logs p)) ∧
          statsStart <$> statsRows v = Start <$> Logs p ∧
          ∀ j e, Logs p !! j = Some e →
                 statsRows v !! j
                 = Some {| statsIndex := (j + 1)%nat;
                           statsStart := Start e;
                           statsEnd := if IsZero (End e) then None else Some (End e);
                           statsDur := if IsZero (End e) then Sub (clock j) (Start e)
                                       else Sub (End e) (Start e) |}).
Proof.
  split.
  - intros Hn. apply findProject_None in Hn. unfold stats. by rewrite Hn.
  - intros i p Hf. unfold stats. rewrite Hf. eexists. split; [done|]. simpl.
    destruct (stats_loop_indices clock 0 0 (Logs p)) as [Hidx Hst].
    repeat split; try done.
    + by rewrite stats_loop_imap, length_imap.
    + intros j e Hj. by rewrite (stats_loop_lookup _ _ _ _ _ _ Hj).
Qed.

Lemma stats_shape_witness :
  stats (λ _, 20) alphaRestarted "beta" = None ∧
  ∃ v, stats (λ _, 20) alphaRestarted "alpha" = Some v ∧
       statsSessions v = 2%nat ∧
       statsTotal v = 4 ∧
       length (statsRows v) = 2%nat ∧
       statsIndex <$> statsRows v = seq 1 2 ∧
       statsStart <$> statsRows v = [5; 12] ∧
       ∀ j e, [{| Start := 5; End := 9 |}; {| Start := 12; End := zeroTime |}] !! j = Some e →
              statsRows v !! j
              = Some {| statsIndex := (j + 1)%nat;
                        statsStart := Start e;
                        statsEnd := if IsZero (End e) then None else Some (End e);
                        statsDur := if IsZero (End e) then Sub 20 (Start e)
                                    else Sub (End e) (Start e) |}.
Proof.
  split.
  - apply (proj1 (stats_shape (λ _, 20) alphaRestarted "beta")).
    intros p Hp. apply list_elem_of_singleton in Hp as ->. discriminate.
  - apply (proj2 (stats_shape (λ _, 20) alphaRestarted "alpha") 0%nat
             {| Name := "alpha";
                Logs := [{| Start := 5; End := 9 |}; {| Start := 12; End := zeroTime |}];
                TotalTime := 4 |}).
    reflexivity.
Defined.

Lemma stats_loop_closed clock k i logs :
  Forall (λ e, End e ≠ zeroTime) logs →
  stats_loop clock k i logs
  = imap (λ j e, {| statsIndex := (i + j + 1)%nat; statsStart := Start e;
                    statsEnd := Some (End e); statsDur := Sub (End e) (Start e) |}) logs.
Proof.
  intros H. rewrite stats_loop_imap. apply imap_ext. intros j e Hj. simpl.
  rewrite Forall_lookup in H. specialize (H _ _ Hj). apply IsZero_false in H.
  unfold statsRowOf, isOpen. by rewrite H.
Qed.

Lemma closedSum_all_closed clock k i logs :
  Forall (λ e, End e ≠ zeroTime) logs →
  closedSum logs = foldr Int64.add 0 (statsDur <$> stats_loop clock k i logs).
Proof.
  revert k i. induction logs as [|e logs IH]; intros k i H; [done|].
  apply Forall_cons in H as [He H]. simpl. unfold isOpen.
  apply IsZero_false in He. rewrite He. simpl. by rewrite <- IH.
Qed.

(** X12: For a project whose entries are all closed, what stats shows does not
    depend on the clock: each row carries the end of its entry and the fixed
    duration [End.Sub(Start)]. If moreover the stored total is the sum over
    the closed entries, the total shown is the [int64] sum of the durations
    of the rows. *)
Theorem stats_of_closed_history clock tracker name i p :
  findProject tracker name = Some (i, p) →
  Forall (λ e, End e ≠ zeroTime) (Logs p) →
  ∃ v, stats clock tracker name = Some v ∧
       (∀ clock', stats clock' tracker name = Some v) ∧
       statsRows v
       = imap (λ j e, {| statsIndex := (j + 1)%nat; statsStart := Start e;
                         statsEnd := Some (End e);
                         statsDur := Sub (End e) (Start e) |}) (Logs p) ∧
       (TotalTime p = closedSum (Logs p) →
        statsTotal v = foldr Int64.add 0 (statsDur <$> statsRows v)).
Proof.
  intros Hf Hclosed. unfold stats. rewrite Hf. eexists. split; [done|]. simpl.
  split; [|split].
  - intros clock'. by rewrite !stats_loop_closed.
  - by rewrite stats_loop_closed.
  - intros ->. by apply closedSum_all_closed.
Qed.

Lemma stats_of_closed_history_witness :
  ∃ v, stats (λ _, 20) (stop alphaStartedAt5 "alpha" 9).2 "alpha" = Some v ∧
       (∀ clock', stats clock' (stop alphaStartedAt5 "alpha" 9).2 "alpha" = Some v) ∧
       statsRows v
       = imap (λ j e, {| statsIndex := (j + 1)%nat; statsStart := Start e;
                         statsEnd := Some (End e);
                         statsDur := Sub (End e) (Start e) |}) [{| Start := 5; End := 9 |}] ∧
       (4 = closedSum [{| Start := 5; End := 9 |}] →
        statsTotal v = foldr Int64.add 0 (statsDur <$> statsRows v)).
Proof.
  apply (stats_of_closed_history (λ _, 20) (stop alphaStartedAt5 "alpha" 9).2 "alpha" 0%nat
           {| Name := "alpha"; Logs := [{| Start := 5; End := 9 |}]; TotalTime := 4 |}).
  - reflexivity.
  - repeat constructor. discriminate.
Defined.

(** ** The report and the readings of the clock *)

Lemma effectiveTotalAt_reading clock k p :
  effectiveTotalAt clock k p
  = (effectiveAtReading clock k p, if isActive p then S k else k).
Proof.
  unfold effectiveAtReading. destruct (isActive p) eqn:Hp.
  - pose proof Hp as Hp'. apply isActive_snoc in Hp' as (init & e & Hl & He).
    rewrite (effectiveTotalAt_active _ _ _ init e Hl He).
    unfold openStart. by rewrite Hl, last_snoc.
  - by apply effectiveTotalAt_idle.
Qed.

Lemma activeBefore_cons p ps j :
  activeBefore (p :: ps) (S j)
  = ((if isActive p then 1 else 0) + activeBefore ps j)%nat.
Proof.
  unfold activeBefore. simpl. rewrite filter_cons.
  case_decide as Hp.
  - by rewrite Hp.
  - apply not_true_is_false in Hp. by rewrite Hp.
Qed.

Lemma activeBefore_all ps :
  activeBefore ps (length ps) = length (filter (λ p, isActive p = true) ps).
Proof. unfold activeBefore. by rewrite firstn_all. Qed.

Lemma totalAll_loop_readings clock k ps acc :
  totalAll_loop clock k ps acc
  = (fold_left (λ a t, Int64.add a (id t))
       (imap (λ j p, effectiveAtReading clock (k + activeBefore ps j) p) ps) acc,
     (k + activeBefore ps (length ps))%nat).
Proof.
  revert k acc. induction ps as [|p ps IH]; intros k acc.
  - simpl. f_equal. unfold activeBefore. simpl. lia.
  - simpl. rewrite effectiveTotalAt_reading, IH.
    replace (k + activeBefore (p :: ps) 0)%nat with k by (unfold activeBefore; simpl; lia).
    f_equal.
    + f_equal. apply imap_ext. intros j q _. simpl. f_equal.
      rewrite activeBefore_cons. destruct (isActive p); lia.
    + rewrite activeBefore_cons. destruct (isActive p); lia.
Qed.

Lemma rows_loop_lookup clock k ps totalAll j p :
  ps !! j = Some p →
  rows_loop clock k ps totalAll !! j
  = Some {| reportName := Name p;
            reportSessions := length (Logs p);
            reportTime := effectiveAtReading clock (k + activeBefore ps j) p;
            reportPercent :=
              percentOf (effectiveAtReading clock (k + activeBefore ps j) p) totalAll |}.
Proof.
  revert k j. induction ps as [|q ps IH]; intros k j Hj; [done|].
  simpl. rewrite effectiveTotalAt_reading. destruct j as [|j]; simpl in *.
  - injection Hj as ->.
    by replace (k + activeBefore (p :: ps) 0)%nat with k by (unfold activeBefore; simpl; lia).
  - rewrite (IH _ _ Hj), activeBefore_cons.
    by replace (k + ((if isActive q then 1 else 0) + activeBefore ps j))%nat
      with ((if isActive q then S k else k) + activeBefore ps j)%nat
      by (destruct (isActive q); lia).
Qed.

Lemma rows_loop_length clock k ps totalAll :
  length (rows_loop clock k ps totalAll) = length ps.
Proof.
  revert k. induction ps as [|p ps IH]; intros k; [done|]. simpl.
  destruct (effectiveTotalAt clock k p). simpl. by rewrite IH.
Qed.

Lemma totalAll_loop_idle clock k ps acc :
  Forall (λ p, isActive p = false) ps →
  totalAll_loop clock k ps acc
  = (fold_left (λ a p, Int64.add a (TotalTime p)) ps acc, k).
Proof.
  intros Hidle. revert k acc.
  induction Hidle as [|p ps Hp _ IH]; intros k acc; [done|]. simpl.
  by rewrite effectiveTotalAt_idle, IH.
Qed.

Lemma rows_loop_idle clock k ps totalAll :
  Forall (λ p, isActive p = false) ps →
  rows_loop clock k ps totalAll
  = (λ p, {| reportName := Name p; reportSessions := length (Logs p);
             reportTime := TotalTime p;
             reportPercent := percentOf (TotalTime p) totalAll |}) <$> ps.
Proof.
  intros Hidle. revert k.
  induction Hidle as [|p ps Hp _ IH]; intros k; [done|]. csimpl.
  rewrite effectiveTotalAt_idle by done. by rewrite IH.
Qed.

Lemma report_all_idle clock tracker :
  Forall (λ p, isActive p = false) (Projects tracker) →
  report clock tracker = report (λ _, zeroTime) tracker.
Proof.
  intros Hidle. unfold report. destruct (bool_decide _); [done|].
  rewrite !totalAll_loop_idle by done. by rewrite !rows_loop_idle.
Qed.

(** X13: report prints "No projects." exactly when the snapshot has none.
    Otherwise it prints one row per project, in order, with its name and its
    number of entries. It reads the clock once per Active project to compute
    the grand total and once more per Active project to compute the rows: with
    [m] Active projects, the Active project that has [a] Active projects
    before it enters the grand total with the reading [a] and appears in its
    row with the reading [m + a]; an Idle project counts for its [TotalTime]
    in both. The percentage of a row is computed from the time of the row and
    the grand total. When every project is Idle the report does not depend on
    the clock. *)
Theorem report_shape clock tracker :
  (report clock tracker = None ↔ Projects tracker = []) ∧
  (∀ r, report clock tracker = Some r →
     let ps := Projects tracker in
     let m := length (filter (λ p, isActive p = true) ps) in
     length (rows r) = length ps ∧
     grandTotal r
     = Int64.wrap (sumZ (imap (λ j p, effectiveAtReading clock (activeBefore ps j) p) ps)) ∧
     ∀ j p, ps !! j = Some p →
       rows r !! j
       = Some {| reportName := Name p;
                 reportSessions := length (Logs p);
                 reportTime := effectiveAtReading clock (m + activeBefore ps j) p;
                 reportPercent :=
                   percentOf (effectiveAtReading clock (m + activeBefore ps j) p)
                             (grandTotal r) |}) ∧
  (Forall (λ p, isActive p = false) (Projects tracker) →
   ∀ clock', report clock' tracker = report clock tracker).
Proof.
  split; [|split].
  - unfold report. destruct (Projects tracker) as [|p ps]; [done|].
    rewrite bool_decide_eq_false_2 by done.
    destruct (totalAll_loop _ _ _ _). by split.
  - intros r. unfold report. destruct (bool_decide _); [done|].
    rewrite totalAll_loop_readings, activeBefore_all. simpl. intros [= <-]. simpl.
    split; [apply rows_loop_length|]. split.
    + rewrite <- (wrap_small (fold_left _ _ _)).
      * by rewrite fold_add_wrap, list_fmap_id.
      * apply (fold_add_inRange id). by compute.
    + intros j p Hj. by rewrite (rows_loop_lookup _ _ _ _ _ _ Hj).
  - intros Hidle clock'. by rewrite (report_all_idle clock), (report_all_idle clock').
Qed.

Lemma report_shape_witness :
  let ps := Projects alphaLiveBetaFixed in
  ∃ r, report (λ n, 100 + Z.of_nat n) alphaLiveBetaFixed = Some r ∧
    length (rows r) = length ps ∧
    grandTotal r
    = Int64.wrap
        (sumZ (imap (λ j p, effectiveAtReading (λ n, 100 + Z.of_nat n) (activeBefore ps j) p)
                    ps)) ∧
    ∀ j p, ps !! j = Some p →
      rows r !! j
      = Some {| reportName := Name p;
                reportSessions := length (Logs p);
                reportTime :=
                  effectiveAtReading (λ n, 100 + Z.of_nat n) (1 + activeBefore ps j) p;
                reportPercent :=
                  percentOf
                    (effectiveAtReading (λ n, 100 + Z.of_nat n) (1 + activeBefore ps j) p)
                    (grandTotal r) |}.
Proof.
  eexists. split; [reflexivity|].
  apply (proj1 (proj2 (report_shape (λ n, 100 + Z.of_nat n) alphaLiveBetaFixed))).
  reflexivity.
Defined.

(** ** The dispatch of [main] *)

Lemma create_outcome tracker name :
  (create tracker name).1 = Created ∨ (create tracker name).1 = AlreadyExists.
Proof. unfold create. destruct (projectExists tracker name); eauto. Qed.

Lemma delete_outcome tracker name r :
  (delete tracker name r).1 = Deleted ∨ (delete tracker name r).1 = Cancelled ∨
  (delete tracker name r).1 = NotFound.
Proof.
  unfold delete. destruct (findProject tracker name) as [[i p]|]; [|eauto].
  destruct (_ && _); eauto.
Qed.

Lemma start_outcome tracker name now :
  (start tracker name now).1 = Started ∨ (start tracker name now).1 = AlreadyActive ∨
  (start tracker name now).1 = NotFound.
Proof.
  unfold start. destruct (findProject tracker name) as [[i p]|]; [|eauto]. simpl.
  destruct (_ && _); eauto.
Qed.

Lemma stop_outcome tracker name now :
  (∃ d t, (stop tracker name now).1 = Stopped d t) ∨ (stop tracker name now).1 = NotActive ∨
  (stop tracker name now).1 = NotFound.
Proof.
  unfold stop. destruct (findProject tracker name) as [[i p]|]; [|eauto]. simpl.
  destruct (_ || _); eauto.
Qed.

Lemma main_command a0 verb name rest now clock r tracker c :
  commandOf verb name r = Some c →
  main (a0 :: verb :: name :: rest) now clock r tracker
  = {| printed := Said (run c now tracker).1;
       saved := if succeeded (run c now tracker).1 then Some (run c now tracker).2 else None |}.
Proof.
  unfold commandOf, main. simpl.
  repeat case_decide; subst; try done; intros [= <-]; simpl.
  - destruct (create_outcome tracker name) as [Ho|Ho];
      destruct (create tracker name) as [o tr]; simpl in Ho; by subst o.
  - destruct (delete_outcome tracker name r) as [Ho|[Ho|Ho]];
      destruct (delete tracker name r) as [o tr]; simpl in Ho; by subst o.
  - destruct (start_outcome tracker name now) as [Ho|[Ho|Ho]];
      destruct (start tracker name now) as [o tr]; simpl in Ho; by subst o.
  - destruct (stop_outcome tracker name now) as [(d & t & Ho)|[Ho|Ho]];
      destruct (stop tracker name now) as [o tr]; simpl in Ho; by subst o.
Qed.

Lemma main_no_command a0 verb name rest now clock r tracker :
  commandOf verb name r = None →
  saved (main (a0 :: verb :: name :: rest) now clock r tracker) = None ∧
  ∀ o, printed (main (a0 :: verb :: name :: rest) now clock r tracker) ≠ Said o.
Proof.
  unfold commandOf, main. simpl.
  repeat case_decide; subst; try done.
Qed.

Lemma main_short args now clock r tracker :
  (length args < 3)%nat →
  saved (main args now clock r tracker) = None ∧
  ∀ o, printed (main args now clock r tracker) ≠ Said o.
Proof.
  destruct args as [|a0 [|verb [|name rest]]]; simpl; try lia; intros _;
    unfold main; simpl; try done.
  repeat case_decide; by simpl.
Qed.

(** X15: [main] passes a snapshot to [saveTracker] only for the verbs create,
    delete, start and stop given with a name, and exactly when the command
    succeeds: what is saved is then the snapshot that the command produced,
    and the line printed is the one of the success. Every other invocation
    (no verb, a verb without its name, an unknown verb, help, list, status,
    stats, report, or a command that is refused) saves nothing. Arguments
    after the name are ignored. *)
Theorem main_saves_on_success args now clock r tracker :
  (∀ tracker',
     saved (main args now clock r tracker) = Some tracker' ↔
     ∃ verb name c,
       args !! 1%nat = Some verb ∧ args !! 2%nat = Some name ∧
       commandOf verb name r = Some c ∧
       succeeded (run c now tracker).1 = true ∧
       tracker' = (run c now tracker).2) ∧
  (∀ o, printed (main args now clock r tracker) = Said o →
        succeeded o = true ↔ is_Some (saved (main args now clock r tracker))) ∧
  ((length args < 2)%nat →
   main args now clock r tracker = {| printed := NoCommand; saved := None |}) ∧
  main (take 3 args) now clock r tracker = main args now clock r tracker.
Proof.
  destruct (decide (length args < 3)%nat) as [Hshort|Hlong].
  - destruct (main_short args now clock r tracker Hshort) as [Hs Hp].
    split; [|split; [|split]].
    + intros tracker'. rewrite Hs. split; [done|].
      intros (verb & name & c & _ & H2 & _). apply lookup_lt_Some in H2. lia.
    + intros o Ho. by destruct (Hp o).
    + intros Hlt. unfold main. by rewrite bool_decide_eq_true_2.
    + by rewrite take_ge by lia.
  - destruct args as [|a0 [|verb [|name rest]]]; simpl in Hlong; try lia.
    split; [|split; [|split]]; [| |simpl; lia|].
    + intros tracker'. destruct (commandOf verb name r) as [c|] eqn:Hc.
      * rewrite (main_command _ _ _ _ _ _ _ _ _ Hc). simpl. split.
        -- destruct (succeeded (run c now tracker).1) eqn:Hok; [|done].
           intros [= <-]. by exists verb, name, c.
        -- intros (? & ? & c' & [= <-] & [= <-] & Hc' & Hok & ->).
           rewrite Hc in Hc'. injection Hc' as <-. by rewrite Hok.
      * destruct (main_no_command a0 verb name rest now clock r tracker Hc) as [Hs _].
        rewrite Hs. split; [done|].
        intros (? & ? & c' & [= <-] & [= <-] & Hc' & _). congruence.
    + intros o. destruct (commandOf verb name r) as [c|] eqn:Hc.
      * rewrite (main_command _ _ _ _ _ _ _ _ _ Hc). simpl. intros [= <-].
        destruct (succeeded (run c now tracker).1); split; try done;
          try (by intros [? ?]); by eauto.
      * destruct (main_no_command a0 verb name rest now clock r tracker Hc) as [_ Hp].
        intros Ho. by destruct (Hp o).
    + simpl. rewrite take_0.
      destruct (commandOf verb name r) as [c|] eqn:Hc.
      * by rewrite !(main_command _ _ _ _ _ _ _ _ _ Hc).
      * unfold commandOf in Hc. unfold main. simpl. by repeat case_decide.
Qed.

(** X16: What [main] saves keeps the invariants of the snapshot it loaded: it is a
    snapshot the program reaches from an empty store if the loaded one is, it
    has at most the last entry of each project open, and its names are
    pairwise distinct, if that holds of the loaded one. *)
Theorem main_saves_reachable args now clock r tracker tracker' :
  saved (main args now clock r tracker) = Some tracker' →
  (reachable tracker → reachable tracker') ∧
  (wellFormedLogs tracker → wellFormedLogs tracker') ∧
  (uniqueNames tracker → uniqueNames tracker').
Proof.
  intros Hs.
  assert (∃ c, tracker' = (run c now tracker).2) as [c ->].
  { destruct (decide (length args < 3)%nat) as [Hshort|Hlong].
    - destruct (main_short args now clock r tracker Hshort) as [Hn _]. congruence.
    - destruct args as [|a0 [|verb [|name rest]]]; simpl in Hlong; try lia.
      destruct (commandOf verb name r) as [c|] eqn:Hc.
      + rewrite (main_command _ _ _ _ _ _ _ _ _ Hc) in Hs. simpl in Hs.
        destruct (succeeded _); [|done]. injection Hs as <-. by exists c.
      + destruct (main_no_command a0 verb name rest now clock r tracker Hc) as [Hn _].
        congruence. }
  split; [|split].
  - apply reachable_run.
  - apply run_wellFormed.
  - apply run_uniqueNames.
Qed.

Lemma main_saves_reachable_witness :
  (reachable alphaStartedAt5 → reachable (stop alphaStartedAt5 "alpha" 9).2) ∧
  (wellFormedLogs alphaStartedAt5 → wellFormedLogs (stop alphaStartedAt5 "alpha" 9).2) ∧
  (uniqueNames alphaStartedAt5 → uniqueNames (stop alphaStartedAt5 "alpha" 9).2).
Proof.
  apply (main_saves_reachable ["ptracker"; "stop"; "alpha"]%string 9 (λ _, 9) ""
           alphaStartedAt5 (stop alphaStartedAt5 "alpha" 9).2).
  reflexivity.
Defined.

Lemma main_saves_on_success_witness :
  saved (main ["ptracker"; "start"; "alpha"]%string 5 (λ _, 5) ""
           (create emptyTracker "alpha").2)
  = Some alphaStartedAt5 ∧
  main ["ptracker"]%string 5 (λ _, 5) "" alphaStartedAt5
  = {| printed := NoCommand; saved := None |}.
Proof.
  split.
  - apply (proj1 (main_saves_on_success ["ptracker"; "start"; "alpha"]%string 5 (λ _, 5) ""
                    (create emptyTracker "alpha").2)).
    exists "start"%string, "alpha"%string, (CmdStart "alpha").
    repeat split; reflexivity.
  - apply (proj1 (proj2 (proj2 (main_saves_on_success ["ptracker"]%string 5 (λ _, 5) ""
                                  alphaStartedAt5)))).
    simpl. lia.
Defined.

(** * Activity and the zero end, command by command *)

(** ** What report computes on a snapshot with projects *)

Lemma report_nonempty clock tracker :
  Projects tracker ≠ [] →
  let ps := Projects tracker in
  let totalAll :=
    Int64.wrap (sumZ (imap (λ j p, effectiveAtReading clock (activeBefore ps j) p) ps)) in
  report clock tracker
  = Some {| rows := rows_loop clock (length (filter (λ p, isActive p = true) ps)) ps totalAll;
            grandTotal := totalAll |}.
Proof.
  intros Hne. unfold report.
  rewrite bool_decide_eq_false_2 by (by destruct (Projects tracker)).
  rewrite totalAll_loop_readings, activeBefore_all. simpl.
  rewrite <- (wrap_small (fold_left _ _ _)).
  - by rewrite fold_add_wrap, list_fmap_id.
  - apply (fold_add_inRange id). by compute.
Qed.

Lemma openStart_last p e : last (Logs p) = Some e → openStart p = Start e.
Proof. intros Hl. unfold openStart. by rewrite Hl. Qed.

Lemma lastEnd_isActive p :
  End <$> last (Logs p) = Some zeroTime ↔ isActive p = true.
Proof.
  unfold isActive, isOpen. destruct (last (Logs p)) as [e|]; simpl; [|done].
  rewrite IsZero_true. split; [by intros [= ->]|by intros ->].
Qed.

Lemma filter_lastEnd (ps : list Project) :
  filter (λ p, End <$> last (Logs p) = Some zeroTime) ps
  = filter (λ p, isActive p = true) ps.
Proof. apply list_filter_iff. intros p. apply lastEnd_isActive. Qed.

Lemma status_names clock tracker :
  statusName <$> status clock tracker
  = Name <$> filter (λ p, isActive p = true) (Projects tracker).
Proof.
  unfold status. rewrite status_loop_imap, fmap_imap.
  apply list_eq. intros j. rewrite list_lookup_imap, list_lookup_fmap.
  by destruct (filter _ _ !! j).
Qed.

(** C3: a project is Active iff its logs are non-empty and the end of the
    last entry is absent (the zero time), Idle is the negation, and every
    command decides on that predicate: start (AlreadyActive or Started), stop
    (NotActive or Stopped), status (the rows are those of the Active projects,
    in order), report (in the grand total and in its row a project counts for
    its total plus the live time when Active, and for its total alone when
    Idle) and stats (the last row is printed open exactly when the project is
    Active). *)
Theorem active_predicate_everywhere :
  (∀ p, isActive p = true ↔
        Logs p ≠ [] ∧ ∃ e, last (Logs p) = Some e ∧ End e = zeroTime) ∧
  (∀ p, isIdle p = negb (isActive p)) ∧
  (∀ tracker name now i p,
     findProject tracker name = Some (i, p) →
     ((start tracker name now).1 = AlreadyActive ↔ isActive p = true) ∧
     ((start tracker name now).1 = Started ↔ isIdle p = true) ∧
     ((stop tracker name now).1 = NotActive ↔ isIdle p = true) ∧
     ((∃ d t, (stop tracker name now).1 = Stopped d t) ↔ isActive p = true)) ∧
  (∀ clock tracker,
     status clock tracker
     = imap (λ j p, {| statusName := Name p;
                       statusStart := openStart p;
                       statusElapsed := Sub (clock j) (openStart p) |})
            (filter (λ p, isActive p = true) (Projects tracker))) ∧
  (∀ clock tracker,
     Projects tracker ≠ [] →
     let ps := Projects tracker in
     let m := length (filter (λ p, isActive p = true) ps) in
     ∃ r, report clock tracker = Some r ∧
          grandTotal r
          = Int64.wrap
              (sumZ (imap (λ j p, if isActive p
                                  then Int64.add (TotalTime p)
                                         (Sub (clock (activeBefore ps j)) (openStart p))
                                  else TotalTime p) ps)) ∧
          ∀ j p, ps !! j = Some p →
            ∃ row, rows r !! j = Some row ∧ reportName row = Name p ∧
                   reportTime row
                   = if isActive p
                     then Int64.add (TotalTime p)
                            (Sub (clock (m + activeBefore ps j)%nat) (openStart p))
                     else TotalTime p) ∧
  (∀ clock tracker name i p,
     findProject tracker name = Some (i, p) →
     ∃ v, stats clock tracker name = Some v ∧
          (isActive p = true ↔ ∃ r, last (statsRows v) = Some r ∧ statsEnd r = None)).
Proof.
  split; [|split; [|split; [|split; [|split]]]].
  - intros p. rewrite isActive_snoc. split.
    + intros (init & e & Hl & He). rewrite Hl. split.
      * by destruct init.
      * exists e. by rewrite last_snoc.
    + intros (_ & e & Hl & He). apply last_Some in Hl as [init Hl]. by exists init, e.
  - apply isIdle_negb.
  - intros tracker name now i p Hf. rewrite isIdle_negb.
    rewrite (start_found _ _ _ _ _ Hf).
    destruct (isActive p) eqn:Hp.
    + pose proof Hp as Hp'. apply isActive_snoc in Hp' as (init & e & Hl & He).
      rewrite (stop_found_active _ _ now _ _ _ _ Hf Hl He). simpl.
      repeat split; try done. intros _. by eexists _, _.
    + rewrite (stop_found_idle _ _ now _ _ Hf Hp). simpl.
      repeat split; try done. by intros (d & t & Hd).
  - intros clock tracker. unfold status. by rewrite status_loop_imap.
  - intros clock tracker Hne. simpl. rewrite (report_nonempty clock tracker Hne).
    eexists. split; [done|]. simpl. split; [done|].
    intros j p Hj. rewrite (rows_loop_lookup _ _ _ _ _ _ Hj). by eexists.
  - intros clock tracker name i p Hf. unfold stats. rewrite Hf. eexists. split; [done|].
    simpl. unfold isActive. destruct (Logs p) as [|e init _] using rev_ind.
    + simpl. split; [done|]. by intros (r & Hr & _).
    + rewrite last_snoc, stats_loop_last. split.
      * intros He. eexists. split; [done|]. simpl. by rewrite He.
      * intros (r & [= <-] & Hr). simpl in Hr. by destruct (isOpen e).
Qed.

Lemma active_predicate_everywhere_witness :
  ((start alphaStartedAt5 "alpha" 7).1 = AlreadyActive ↔
   isActive {| Name := "alpha"; Logs := [{| Start := 5; End := zeroTime |}];
               TotalTime := 0 |} = true) ∧
  (let ps := Projects alphaLiveBetaFixed in
   let m := length (filter (λ p, isActive p = true) ps) in
   ∃ r, report (λ n, 100 + Z.of_nat n) alphaLiveBetaFixed = Some r ∧
        grandTotal r
        = Int64.wrap
            (sumZ (imap (λ j p, if isActive p
                                then Int64.add (TotalTime p)
                                       (Sub (100 + Z.of_nat (activeBefore ps j)) (openStart p))
                                else TotalTime p) ps)) ∧
        ∀ j p, ps !! j = Some p →
          ∃ row, rows r !! j = Some row ∧ reportName row = Name p ∧
                 reportTime row
                 = if isActive p
                   then Int64.add (TotalTime p)
                          (Sub (100 + Z.of_nat (m + activeBefore ps j)%nat) (openStart p))
                   else TotalTime p) ∧
  (∃ v, stats (λ _, 8) alphaStartedAt5 "alpha" = Some v ∧
        (isActive {| Name := "alpha"; Logs := [{| Start := 5; End := zeroTime |}];
                     TotalTime := 0 |} = true
         ↔ ∃ r, last (statsRows v) = Some r ∧ statsEnd r = None)).
Proof.
  pose proof active_predicate_everywhere as (_ & _ & Hcmd & _ & Hreport & Hstats).
  split; [|split].
  - apply (Hcmd alphaStartedAt5 "alpha" 7 0%nat). reflexivity.
  - apply (Hreport (λ n, 100 + Z.of_nat n) alphaLiveBetaFixed). discriminate.
  - apply (Hstats (λ _, 8) alphaStartedAt5 "alpha" 0%nat). reflexivity.
Defined.

(** C10: the absent end of an entry is the zero time, and every command reads
    it that way. start signals AlreadyActive, and stop succeeds, exactly when
    the end of the last entry is the zero time; status lists exactly the
    projects whose last entry has the zero time as end; stats prints an entry
    as open, with the live duration, exactly when its end is the zero time,
    and with its end and fixed duration otherwise; report adds the live time
    to a project exactly when the end of its last entry is the zero time. So
    an entry is closed only with a non-zero end: after a successful stop at
    the zero time the logs of the project are what they were, start signals
    AlreadyActive, stop succeeds again, status lists the project, stats prints
    its last entry as open and report adds its live time. *)
Theorem zero_end_is_open :
  (∀ tracker name now i p,
     findProject tracker name = Some (i, p) →
     ((start tracker name now).1 = AlreadyActive ↔ End <$> last (Logs p) = Some zeroTime) ∧
     ((∃ d t, (stop tracker name now).1 = Stopped d t)
      ↔ End <$> last (Logs p) = Some zeroTime)) ∧
  (∀ clock tracker,
     statusName <$> status clock tracker
     = Name <$> filter (λ p, End <$> last (Logs p) = Some zeroTime) (Projects tracker)) ∧
  (∀ clock tracker name i p,
     findProject tracker name = Some (i, p) →
     ∃ v, stats clock tracker name = Some v ∧
          ∀ j e, Logs p !! j = Some e →
            ∃ row, statsRows v !! j = Some row ∧
                   (End e = zeroTime →
                    statsEnd row = None ∧ statsDur row = Sub (clock j) (Start e)) ∧
                   (End e ≠ zeroTime →
                    statsEnd row = Some (End e) ∧ statsDur row = Sub (End e) (Start e))) ∧
  (∀ clock tracker,
     Projects tracker ≠ [] →
     ∃ r, report clock tracker = Some r ∧
          ∀ j p, Projects tracker !! j = Some p →
            ∃ row, rows r !! j = Some row ∧
                   (End <$> last (Logs p) = Some zeroTime →
                    ∃ n, reportTime row
                         = Int64.add (TotalTime p) (Sub (clock n) (openStart p))) ∧
                   (End <$> last (Logs p) ≠ Some zeroTime →
                    reportTime row = TotalTime p)) ∧
  (∀ tracker name i p,
     findProject tracker name = Some (i, p) →
     End <$> last (Logs p) = Some zeroTime →
     let stopped := (stop tracker name zeroTime).2 in
     ∃ p' e d t,
       stop tracker name zeroTime
       = (Stopped d t, {| Projects := <[i:=p']> (Projects tracker) |}) ∧
       Name p' = Name p ∧ Logs p' = Logs p ∧
       last (Logs p') = Some e ∧ End e = zeroTime ∧
       (∀ now, (start stopped name now).1 = AlreadyActive) ∧
       (∀ now, (stop stopped name now).1
               = Stopped (Sub now (Start e))
                   (Int64.add (TotalTime p') (Sub now (Start e)))) ∧
       (∀ clock, ∃ row, row ∈ status clock stopped ∧
                        statusName row = Name p ∧ statusStart row = Start e) ∧
       (∀ clock, ∃ v row, stats clock stopped name = Some v ∧
                          last (statsRows v) = Some row ∧ statsEnd row = None) ∧
       (∀ clock, ∃ r row n, report clock stopped = Some r ∧ rows r !! i = Some row ∧
                            reportTime row
                            = Int64.add (TotalTime p') (Sub (clock n) (Start e)))).
Proof.
  split; [|split; [|split; [|split]]].
  - intros tracker name now i p Hf. rewrite lastEnd_isActive.
    rewrite (start_found _ _ _ _ _ Hf).
    destruct (isActive p) eqn:Hp.
    + pose proof Hp as Hp'. apply isActive_snoc in Hp' as (init & e & Hl & He).
      rewrite (stop_found_active _ _ now _ _ _ _ Hf Hl He). simpl.
      repeat split; try done. intros _. by eexists _, _.
    + rewrite (stop_found_idle _ _ now _ _ Hf Hp). simpl.
      repeat split; try done. by intros (d & t & Hd).
  - intros clock tracker. by rewrite filter_lastEnd, status_names.
  - intros clock tracker name i p Hf. unfold stats. rewrite Hf. eexists. split; [done|].
    simpl. intros j e Hj. rewrite (stats_loop_lookup _ _ _ _ _ _ Hj).
    eexists. split; [done|]. unfold statsRowOf, isOpen. simpl. split.
    + intros He. apply IsZero_true in He. by rewrite He.
    + intros He. apply IsZero_false in He. by rewrite He.
  - intros clock tracker Hne. rewrite (report_nonempty clock tracker Hne).
    eexists. split; [done|]. simpl. intros j p Hj.
    rewrite (rows_loop_lookup _ _ _ _ _ _ Hj). eexists. split; [done|]. simpl.
    unfold effectiveAtReading. rewrite lastEnd_isActive. split.
    + intros ->. by eexists.
    + intros Hp. apply not_true_is_false in Hp. by rewrite Hp.
  - intros tracker name i p Hf Hz. simpl.
    apply lastEnd_isActive, isActive_snoc in Hz as (init & e & Hl & He).
    pose proof (stoppedProject_at_zero p init e Hl He) as [Hn Hl'].
    pose proof (stop_found_active _ _ zeroTime _ _ _ _ Hf Hl He) as Hstop.
    remember (stoppedProject p init e zeroTime) as p' eqn:Hdef. clear Hdef.
    assert (findProject {| Projects := <[i:=p']> (Projects tracker) |} name = Some (i, p'))
      as Hf' by (by apply (findProject_insert _ _ _ p)).
    assert (last (Logs p') = Some e) as Hlast by (by rewrite Hl', Hl, last_snoc).
    assert (isActive p' = true) as Hp'.
    { apply isActive_snoc. exists init, e. by rewrite Hl', Hl. }
    pose proof (proj1 (findProject_Some _ _ _ _) Hf') as (Hi' & _). simpl in Hi'.
    exists p', e, (Sub zeroTime (Start e)),
      (Int64.add (TotalTime p) (Sub zeroTime (Start e))).
    rewrite Hstop. simpl.
    split; [done|]. split; [done|]. split; [done|]. split; [done|]. split; [done|].
    split; [|split; [|split; [|split]]].
    + intros now. by rewrite (start_found _ _ _ _ _ Hf'), Hp'.
    + intros now. rewrite (stop_found_active _ _ now _ _ init e Hf'); [done| |done].
      by rewrite Hl', Hl.
    + intros clock. unfold status. rewrite status_loop_imap. simpl.
      assert (p' ∈ filter (λ q, isActive q = true) (<[i:=p']> (Projects tracker))) as Hin.
      { apply list_elem_of_filter. split; [done|]. by eapply list_elem_of_lookup_2. }
      apply list_elem_of_lookup in Hin as [k Hk].
      exists (statusRowOf clock (0 + k) p'). split.
      * apply list_elem_of_lookup. exists k. by rewrite list_lookup_imap, Hk.
      * simpl. split; [done|]. by apply openStart_last.
    + intros clock. unfold stats. rewrite Hf'. eexists _, _. split; [done|]. simpl.
      rewrite Hl', Hl, stats_loop_last. split; [done|]. simpl. unfold isOpen.
      apply IsZero_true in He. by rewrite He.
    + intros clock.
      assert (Projects {| Projects := <[i:=p']> (Projects tracker) |} ≠ []) as Hne.
      { simpl. intros Hnil. by rewrite Hnil in Hi'. }
      rewrite (report_nonempty clock _ Hne). simpl.
      eexists _, _, _. split; [done|]. simpl.
      rewrite (rows_loop_lookup _ _ _ _ _ _ Hi'). split; [done|]. simpl.
      unfold effectiveAtReading. by rewrite Hp', (openStart_last _ _ Hlast).
Qed.

Lemma zero_end_is_open_witness :
  let stopped := (stop alphaStartedAt5 "alpha" zeroTime).2 in
  ∃ p' e d t,
    stop alphaStartedAt5 "alpha" zeroTime
    = (Stopped d t, {| Projects := <[0%nat:=p']> (Projects alphaStartedAt5) |}) ∧
    Name p' = "alpha" ∧ Logs p' = [{| Start := 5; End := zeroTime |}] ∧
    last (Logs p') = Some e ∧ End e = zeroTime ∧
    (∀ now, (start stopped "alpha" now).1 = AlreadyActive) ∧
    (∀ now, (stop stopped "alpha" now).1
            = Stopped (Sub now (Start e)) (Int64.add (TotalTime p') (Sub now (Start e)))) ∧
    (∀ clock, ∃ row, row ∈ status clock stopped ∧
                     statusName row = "alpha" ∧ statusStart row = Start e) ∧
    (∀ clock, ∃ v row, stats clock stopped "alpha" = Some v ∧
                       last (statsRows v) = Some row ∧ statsEnd row = None) ∧
    (∀ clock, ∃ r row n, report clock stopped = Some r ∧ rows r !! 0%nat = Some row ∧
                         reportTime row
                         = Int64.add (TotalTime p') (Sub (clock n) (Start e))).
Proof.
  apply (proj2 (proj2 (proj2 (proj2 zero_end_is_open))) alphaStartedAt5 "alpha" 0%nat
           {| Name := "alpha"; Logs := [{| Start := 5; End := zeroTime |}]; TotalTime := 0 |});
    reflexivity.
Defined.

(** * The percentages of the report *)





